(** * CarRecogWebsite: the image analyzer and its upload handler

    A shallow embedding of [src/app.py] and the properties its specification
    states about it.

    The program is a Flask view, [index], that validates an uploaded file,
    decodes it and hands it to [analyze_image], which calls OpenCV for the
    image processing and then decides two things in plain Python: the
    dominant colour, from three pixel counts, and the plate candidates, from
    the bounding rectangle and area of every contour.

    Python objects that are passed by reference (NumPy arrays) live in an
    explicit heap; exceptions are a result type; the view and the analyzer
    run in one state-and-error monad over the heap, the standard output and
    a log of the calls the view makes. *)

From Stdlib Require Import ZArith QArith Qabs Lia.
From Stdlib Require Import Strings.Byte Ascii String.
From Stdlib Require Import List.
From stdpp Require Import base option list.
Import ListNotations.

Local Open Scope Z_scope.

(** ** Python values *)

(** The exceptions the modelled code can raise. *)
Inductive exn : Type :=
| ZeroDivisionError
| IndexError
| KeyError
| cv2_error.

Inductive result (A : Type) : Type :=
| Ok (a : A)
| Raise (e : exn).
Arguments Ok {A} a.
Arguments Raise {A} e.

(** A NumPy image: rows of pixels, a pixel being the list of its channel
    values (one for a grey image or a mask, three for BGR and HSV). *)
Definition Pixel : Type := list Z.
Definition Mat : Type := list (list Pixel).

(** A contour as [findContours] yields it: integer points. *)
Definition Point : Type := (Z * Z)%type.
Definition Contour : Type := list Point.

(** References to arrays: a heap location, or Python's [None]. *)
Definition loc : Type := nat.
Definition pyref : Type := option loc.

(** The dict ['x': x, 'y': y, 'w': w, 'h': h] of one plate candidate. *)
Module Plate.
Record t : Type := mk { x : Z; y : Z; w : Z; h : Z }.
End Plate.

(** The dict ['color': ..., 'number_plates': ...] that [analyze_image]
    returns. *)
Record AnalysisResult : Type := mkResult {
  color : option string;
  number_plates : list Plate.t
}.

(** ** The web layer's values *)

(** werkzeug's [FileStorage]: the client's file name and the byte stream. *)
Record FileStorage : Type := mkFile {
  filename : string;
  stream : list Byte.byte
}.

(** The part of Flask's [request] the view reads; [files] is a multi-dict,
    kept as an association list in arrival order. *)
Record Request : Type := mkRequest {
  method : string;
  files : list (string * FileStorage)
}.

Inductive ctx_value : Type :=
| CtxStr (s : string)
| CtxResult (r : AnalysisResult).

(** [render_template(name, **context)]. *)
Inductive Response : Type :=
| render_template (name : string) (context : list (string * ctx_value)).

(** ** The world a request runs in *)

(** The calls of the view that the log records: [file.read()] and
    [analyze_image(image)]. *)
Inductive call : Type :=
| Call_read (name : string)
| Call_analyze_image (image : pyref).

Record world : Type := mkWorld {
  heap : list Mat;
  stdout : list (list (string * FileStorage));
  calls : list call
}.

Definition M (A : Type) : Type := world -> result A * world.

Definition ret {A} (a : A) : M A := fun s => (Ok a, s).

Definition bind {A B} (m : M A) (k : A -> M B) : M B :=
  fun s =>
    match m s with
    | (Ok a, s') => k a s'
    | (Raise e, s') => (Raise e, s')
    end.

Definition raise {A} (e : exn) : M A := fun s => (Raise e, s).

Definition lift {A} (r : result A) : M A := fun s => (r, s).

Declare Scope py_scope.
Delimit Scope py_scope with py.
Notation "x <- m ;; k" := (bind m (fun x => k))
  (at level 100, m at next level, right associativity) : py_scope.
Notation "m ;;; k" := (bind m (fun _ => k))
  (at level 100, right associativity) : py_scope.
Local Open Scope py_scope.

(** Heap primitives. *)
Definition alloc (m : Mat) : M pyref :=
  fun s =>
    (Ok (Some (length (heap s))),
     mkWorld (heap s ++ [m]) (stdout s) (calls s)).

Definition deref (r : pyref) : M Mat :=
  fun s =>
    match r with
    | None => (Raise cv2_error, s)
    | Some l =>
        match heap s !! l with
        | Some m => (Ok m, s)
        | None => (Raise cv2_error, s)
        end
    end.

Definition store (r : pyref) (m : Mat) : M unit :=
  fun s =>
    match r with
    | None => (Raise cv2_error, s)
    | Some l => (Ok tt, mkWorld (<[l := m]> (heap s)) (stdout s) (calls s))
    end.

Definition print (fs : list (string * FileStorage)) : M unit :=
  fun s => (Ok tt, mkWorld (heap s) (stdout s ++ [fs]) (calls s)).

Definition log (c : call) : M unit :=
  fun s => (Ok tt, mkWorld (heap s) (stdout s) (calls s ++ [c])).

(** ** OpenCV *)

Inductive ColorConversionCode : Type := COLOR_BGR2GRAY | COLOR_BGR2HSV.

(** What [cvtColor] takes for the two conversions used: an array that
    has pixels, each of three or four channels.  On anything else (an
    empty array, a grey one) it raises cv2.error. *)
Definition cvt_accepts (m : Mat) : bool :=
  negb (Nat.eqb (length (concat m)) 0)
  && forallb (fun px => Nat.eqb (length px) 3 || Nat.eqb (length px) 4)
       (concat m).

(** The image-processing kernels of OpenCV are parameters of the
    development: every theorem holds whatever they compute.  The two
    colour conversions are consulted on the arrays [cvtColor] accepts
    only; the decoder comes with what OpenCV documents of it. *)
Class CV2 : Type := {
  cvt_BGR2GRAY : Mat -> Mat;
  cvt_BGR2HSV : Mat -> Mat;
  gaussian : Mat -> Z * Z -> Z -> Mat;
  canny : Mat -> Z -> Z -> Mat;
  (** the outer contours of an edge map, in discovery order *)
  contours : Mat -> list Contour;
  hierarchy : Mat -> Mat;
  (** what [findContours] leaves in the buffer it was given (older
      versions use it as scratch space) *)
  contours_scratch : Mat -> Mat;
  (** the image that [imdecode(buf, IMREAD_COLOR)] finds in the bytes;
      [None] for bytes that are no image *)
  imdecode_color : list Byte.byte -> option Mat;
  (** no bytes, no image *)
  imdecode_empty : imdecode_color [] = None;
  (** a decoded image has pixels, of three channels each *)
  imdecode_shape :
    forall buf m, imdecode_color buf = Some m -> cvt_accepts m = true
}.

Section Analyzer.
Context {cv : CV2}.

(** Every call below is made without a destination argument, so OpenCV
    allocates the array it returns. *)
Definition cvtColor (src : pyref) (code : ColorConversionCode) : M pyref :=
  m <- deref src ;;
  if cvt_accepts m then
    match code with
    | COLOR_BGR2GRAY => alloc (cvt_BGR2GRAY m)
    | COLOR_BGR2HSV => alloc (cvt_BGR2HSV m)
    end
  else raise cv2_error.

Definition GaussianBlur (src : pyref) (ksize : Z * Z) (sigmaX : Z) : M pyref :=
  m <- deref src ;;
  alloc (gaussian m ksize sigmaX).

Definition Canny (src : pyref) (threshold1 threshold2 : Z) : M pyref :=
  m <- deref src ;;
  alloc (canny m threshold1 threshold2).

(** [ndarray.copy()]. *)
Definition copy (src : pyref) : M pyref :=
  m <- deref src ;;
  alloc m.

(** [findContours(image, RETR_EXTERNAL, CHAIN_APPROX_SIMPLE)]: returns the
    pair (contours, hierarchy), of which the caller takes item 0, and may
    overwrite [image]. *)
Definition findContours (image : pyref) : M (list Contour * Mat) :=
  m <- deref image ;;
  store image (contours_scratch m) ;;;
  ret (contours m, hierarchy m).

(** A bound given as a 3-tuple is a 4-entry scalar, padded with 0. *)
Definition Scalar (t : Z * Z * Z) : list Z :=
  let '(a, b, c) := t in [a; b; c; 0].

Fixpoint within (p lo hi : list Z) : bool :=
  match p, lo, hi with
  | v :: p', l :: lo', u :: hi' => (l <=? v) && (v <=? u) && within p' lo' hi'
  | _, _, _ => true
  end.

(** [inRange]: the mask that is 255 where every channel lies between the
    bounds, both included, and 0 elsewhere. *)
Definition inRange_px (lowerb upperb : Z * Z * Z) (p : Pixel) : Pixel :=
  if within p (Scalar lowerb) (Scalar upperb) then [255] else [0].

Definition inRange (src : pyref) (lowerb upperb : Z * Z * Z) : M pyref :=
  m <- deref src ;;
  alloc (map (map (inRange_px lowerb upperb)) m).

(** [countNonZero] of a single-channel array. *)
Definition nonzero (p : Pixel) : bool := negb (forallb (Z.eqb 0) p).

Definition countNonZero (src : pyref) : M Z :=
  m <- deref src ;;
  ret (Z.of_nat (length (List.filter nonzero (concat m)))).

(** Modelled from the spec: [cv2.boundingRect] is OpenCV's and not under
    src/.  The upright bounding rectangle of a contour, the smallest
    axis-aligned rectangle of pixels enclosing its points: top-left corner,
    then width and height counted in pixels; the empty rectangle for no
    point at all. *)
Definition boundingRect (cnt : Contour) : Z * Z * Z * Z :=
  match cnt with
  | [] => (0, 0, 0, 0)
  | (px, py) :: pts =>
      let xmin := fold_left Z.min (map fst pts) px in
      let xmax := fold_left Z.max (map fst pts) px in
      let ymin := fold_left Z.min (map snd pts) py in
      let ymax := fold_left Z.max (map snd pts) py in
      (xmin, ymin, xmax - xmin + 1, ymax - ymin + 1)
  end.

Fixpoint shoelace (prev : Point) (pts : list Point) : Z :=
  match pts with
  | [] => 0
  | p :: rest => (fst prev * snd p - snd prev * fst p) + shoelace p rest
  end.

(** Modelled from the spec: [cv2.contourArea] is OpenCV's and not under
    src/.  The area enclosed by the contour taken as a polygon, by the
    shoelace formula: half the absolute value of the cross products of
    consecutive points, the last point preceding the first. *)
Definition contourArea (cnt : Contour) : Q :=
  match cnt with
  | [] => 0%Q
  | p :: pts => Qabs (inject_Z (shoelace (List.last pts p) cnt) * (1 # 2))
  end.

(** ** Python floats

    [float(w) / h] is the correctly rounded quotient of two pixel counts,
    and the area is half a sum of products of pixel coordinates, exact in
    double precision; both are compared with integer constants only, and
    fall on the same side of them as the exact quotients, which is what
    the model computes with. *)
Definition float (n : Z) : Q := inject_Z n.

Definition truediv (a : Q) (b : Z) : result Q :=
  if b =? 0 then Raise ZeroDivisionError else Ok (a / inject_Z b)%Q.

Definition Qltb (a b : Q) : bool := negb (Qle_bool b a).

(** ** analyze_image *)

(** Lines 60-64: the loop over the contours. *)
Fixpoint for_cnt (cnts : list Contour) (number_plates : list Plate.t)
  : result (list Plate.t) :=
  match cnts with
  | [] => Ok number_plates
  | cnt :: cnts' =>
      let '(x, y, w, h) := boundingRect cnt in
      match truediv (float w) h with
      | Raise e => Raise e
      | Ok aspect_ratio =>
          if Qltb 2 aspect_ratio && Qltb aspect_ratio 5
             && (Qltb 100 (contourArea cnt) && Qltb (contourArea cnt) 5000)
          then for_cnt cnts' (number_plates ++ [Plate.mk x y w h])
          else for_cnt cnts' number_plates
      end
  end.

(** Lines 43-49: the label, from the three counts. *)
Definition dominant_color (red_count blue_count green_count : Z)
  : option string :=
  if (red_count >? blue_count) && (red_count >? green_count)
  then Some "Red"%string
  else if (blue_count >? red_count) && (blue_count >? green_count)
  then Some "Blue"%string
  else if (green_count >? red_count) && (green_count >? blue_count)
  then Some "Green"%string
  else None.

Definition analyze_image (image : pyref) : M AnalysisResult :=
  (* Preprocess the image *)
  gray <- cvtColor image COLOR_BGR2GRAY ;;
  blur <- GaussianBlur gray (5, 5) 0 ;;
  (* Dominant color analysis *)
  hsv <- cvtColor image COLOR_BGR2HSV ;;
  let red_lower := (170, 100, 100) in
  let red_upper := (180, 255, 255) in
  let blue_lower := (100, 100, 100) in
  let blue_upper := (140, 255, 255) in
  let green_lower := (40, 50, 50) in
  let green_upper := (80, 255, 255) in
  red_mask <- inRange hsv red_lower red_upper ;;
  red_count <- countNonZero red_mask ;;
  blue_mask <- inRange hsv blue_lower blue_upper ;;
  blue_count <- countNonZero blue_mask ;;
  green_mask <- inRange hsv green_lower green_upper ;;
  green_count <- countNonZero green_mask ;;
  (* Number plate detection *)
  edges <- Canny blur 200 400 ;;
  edges_copy <- copy edges ;;
  found <- findContours edges_copy ;;
  let cnts := fst found in
  number_plates <- lift (for_cnt cnts []) ;;
  ret (mkResult (dominant_color red_count blue_count green_count)
                number_plates).

End Analyzer.

(** ** allowed_file

    File names are strings of 8-bit characters; [lower] folds the ASCII
    capitals, which are the only characters whose lower case is a letter of
    an accepted extension. *)

(** ['.' in filename], for a one-character needle. *)
Fixpoint contains (c : ascii) (s : string) : bool :=
  match s with
  | EmptyString => false
  | String a s' => Ascii.eqb a c || contains c s'
  end.

(** [s.rsplit(sep, 1)]: cut at the last [sep]; the whole string alone when
    there is none. *)
Fixpoint rsplit1 (sep : ascii) (s : string) : list string :=
  match s with
  | EmptyString => [EmptyString]
  | String a s' =>
      match rsplit1 sep s' with
      | [before; after] => [String a before; after]
      | _ => if Ascii.eqb a sep then [EmptyString; s'] else [String a s']
      end
  end.

Definition lower_ascii (a : ascii) : ascii :=
  let n := N_of_ascii a in
  if (N.leb 65 n && N.leb n 90)%bool then ascii_of_N (n + 32) else a.

Fixpoint lower (s : string) : string :=
  match s with
  | EmptyString => EmptyString
  | String a s' => String (lower_ascii a) (lower s')
  end.

(** [l[i]]. *)
Definition getindex {A} (l : list A) (i : nat) : result A :=
  match nth_error l i with
  | Some a => Ok a
  | None => Raise IndexError
  end.

Definition allowed_file (filename : string) : result bool :=
  if contains "." filename then
    match getindex (rsplit1 "." filename) 1 with
    | Raise e => Raise e
    | Ok ext =>
        Ok (existsb (String.eqb (lower ext)) ["png"; "jpg"; "jpeg"]%string)
    end
  else Ok false.

(** ** index *)

Section View.
Context {cv : CV2}.

(** [key in request.files] and [request.files[key]] (the first value). *)
Definition has_key (key : string) (d : list (string * FileStorage)) : bool :=
  existsb (fun kv => String.eqb (fst kv) key) d.

Fixpoint getitem (d : list (string * FileStorage)) (key : string)
  : result FileStorage :=
  match d with
  | [] => Raise KeyError
  | (k, v) :: d' => if String.eqb k key then Ok v else getitem d' key
  end.

(** [bool(file)]: a [FileStorage] is true when it has a file name. *)
Definition truthy (file : FileStorage) : bool :=
  negb (String.eqb (filename file) "").

Definition read (file : FileStorage) : M (list Byte.byte) :=
  log (Call_read (filename file)) ;;;
  ret (stream file).

Definition np_fromstring (s : list Byte.byte) : list Byte.byte := s.

(** [cv2.imdecode(buf, IMREAD_COLOR)]: raises cv2.error on an empty
    buffer; otherwise the decoded image, or None when the bytes hold
    none. *)
Definition imdecode (buf : list Byte.byte) : M pyref :=
  match buf with
  | [] => raise cv2_error
  | _ :: _ =>
      match imdecode_color buf with
      | Some m => alloc m
      | None => ret None
      end
  end.

(** Lines 77-99: the body of [if request.method == 'POST'].  [Some r] is
    [return r]; [None] is falling out of the block. *)
Definition post_block (request : Request) : M (option Response) :=
  print (files request) ;;;
  (* Check if a file was uploaded *)
  if negb (has_key "file" (files request)) then
    ret (Some (render_template "index.html"
                 [("error"%string, CtxStr "No file part")]))
  else
    file <- lift (getitem (files request) "file") ;;
    (* Check if the file is empty *)
    if String.eqb (filename file) "" then
      ret (Some (render_template "index.html"
                   [("error"%string, CtxStr "No selected file")]))
    else
      (* Check if the file is an image *)
      is_image <- (if truthy file then lift (allowed_file (filename file))
                   else ret false) ;;
      if is_image : bool then
        image_stream <- read file ;;
        let nparr := np_fromstring image_stream in
        image <- imdecode nparr ;;
        log (Call_analyze_image image) ;;;
        analysis_result <- analyze_image image ;;
        ret (Some (render_template "result.html"
                     [("result"%string, CtxResult analysis_result)]))
      else ret None.

Definition index (request : Request) : M Response :=
  returned <- (if String.eqb (method request) "POST"
               then post_block request else ret None) ;;
  match returned with
  | Some response => ret response
  | None => ret (render_template "index.html" [])
  end.

End View.

(** ** A stand-in for OpenCV

    Used to run the definitions on examples.  Colour conversion, blur and
    edge detection return their input; every row of the edge map is read
    as one contour, a pixel [a; b] being the point (a, b); a byte string
    that starts with a non-zero byte decodes to a one-pixel image, any
    other to none. *)
Definition px_point (p : Pixel) : Point :=
  match p with
  | a :: b :: _ => (a, b)
  | _ => (0, 0)
  end.

Definition toy_decode (buf : list Byte.byte) : option Mat :=
  match buf with
  | [] => None
  | b :: _ =>
      let v := Z.of_N (Byte.to_N b) in
      if v =? 0 then None else Some [[[v; v; v]]]
  end.

Definition toy_cv : CV2.
Proof.
  refine {|
    cvt_BGR2GRAY := fun m => m;
    cvt_BGR2HSV := fun m => m;
    gaussian := fun m _ _ => m;
    canny := fun m _ _ => m;
    contours := fun m => map (map px_point) m;
    hierarchy := fun _ => [];
    contours_scratch := fun _ => [];
    imdecode_color := toy_decode
  |}.
  - reflexivity.
  - intros buf m. destruct buf as [|b buf]; [ discriminate | ].
    unfold toy_decode. cbn zeta.
    destruct (Z.of_N (Byte.to_N b) =? 0); [ discriminate | ].
    intros [= <-]. reflexivity.
Defined.

(** The stand-in with an edge detector that finds no contour. *)
Definition flat_cv : CV2 := {|
  cvt_BGR2GRAY := fun m => m;
  cvt_BGR2HSV := fun m => m;
  gaussian := fun m _ _ => m;
  canny := fun m _ _ => m;
  contours := fun _ => [];
  hierarchy := fun _ => [];
  contours_scratch := fun _ => [];
  imdecode_color := toy_decode;
  imdecode_empty := imdecode_empty (CV2 := toy_cv);
  imdecode_shape := imdecode_shape (CV2 := toy_cv)
|}.

Definition empty_world : world := mkWorld [] [] [].

(** ** Notions the statements use *)

Section Notions.
Context {cv : CV2}.

(** The buffers [analyze_image] derives from the image [img]. *)
Definition gray_of (img : Mat) : Mat := cvt_BGR2GRAY img.
Definition blur_of (img : Mat) : Mat := gaussian (gray_of img) (5, 5) 0.
Definition hsv_of (img : Mat) : Mat := cvt_BGR2HSV img.
Definition edges_of (img : Mat) : Mat := canny (blur_of img) 200 400.

Definition mask_of (hsv : Mat) (lowerb upperb : Z * Z * Z) : Mat :=
  map (map (inRange_px lowerb upperb)) hsv.

(** The number of pixels of [hsv] inside a band. *)
Definition band_count (hsv : Mat) (lowerb upperb : Z * Z * Z) : Z :=
  Z.of_nat (length (List.filter nonzero (concat (mask_of hsv lowerb upperb)))).

Definition red_count_of (img : Mat) : Z :=
  band_count (hsv_of img) (170, 100, 100) (180, 255, 255).
Definition blue_count_of (img : Mat) : Z :=
  band_count (hsv_of img) (100, 100, 100) (140, 255, 255).
Definition green_count_of (img : Mat) : Z :=
  band_count (hsv_of img) (40, 50, 50) (80, 255, 255).

(** The contours discovered in the edge map of [img], in discovery order. *)
Definition discovered (img : Mat) : list Contour := contours (edges_of img).

(** Everything a call allocates, in allocation order; the last buffer is
    the copy of the edge map after [findContours] has used it. *)
Definition derived (img : Mat) : list Mat :=
  [ gray_of img; blur_of img; hsv_of img;
    mask_of (hsv_of img) (170, 100, 100) (180, 255, 255);
    mask_of (hsv_of img) (100, 100, 100) (140, 255, 255);
    mask_of (hsv_of img) (40, 50, 50) (80, 255, 255);
    edges_of img;
    contours_scratch (edges_of img) ].

End Notions.

(** The dict the loop appends for a contour it keeps. *)
Definition bounding_plate (cnt : Contour) : Plate.t :=
  let '(x, y, w, h) := boundingRect cnt in Plate.mk x y w h.

(** The aspect ratio w/h of a rectangle, as an exact quotient. *)
Definition aspect (p : Plate.t) : Q :=
  (inject_Z (Plate.w p) / inject_Z (Plate.h p))%Q.

(** The specification's filter: 2 < w/h < 5 and 100 < area < 5000, the
    area being the one the contour encloses. *)
Definition plate_candidate (cnt : Contour) : Prop :=
  ((2 < aspect (bounding_plate cnt)) /\ (aspect (bounding_plate cnt) < 5))%Q
  /\ ((100 < contourArea cnt) /\ (contourArea cnt < 5000))%Q.

#[global] Instance Qlt_decision (a b : Q) : Decision (a < b)%Q :=
  match Qlt_le_dec a b with
  | left H => left H
  | right H => right (Qle_not_lt _ _ H)
  end.

#[global] Instance plate_candidate_dec (cnt : Contour)
  : Decision (plate_candidate cnt).
Proof. unfold plate_candidate. apply _. Defined.

(** The test of line 63 as the loop evaluates it, for a contour whose
    rectangle has a height. *)
Definition keeps (cnt : Contour) : bool :=
  Qltb 2 (aspect (bounding_plate cnt)) && Qltb (aspect (bounding_plate cnt)) 5
  && (Qltb 100 (contourArea cnt) && Qltb (contourArea cnt) 5000).

(** The specification's extension check: [ext] is what follows the last
    dot of [name]. *)
Definition after_last_dot (name ext : string) : Prop :=
  exists stem : string,
    name = (stem ++ String "." ext)%string /\ contains "." ext = false.

Definition accepted_extension (ext : string) : Prop :=
  lower ext = "png"%string \/ lower ext = "jpg"%string
  \/ lower ext = "jpeg"%string.

(** ** Example inputs *)

(** For the stand-in: three rows, read as a 60 x 20 rectangle, a 10 x 10
    square and a single point; the only pixel inside a colour band is the
    last one, in the red band. *)
Definition demo_image : Mat :=
  [ [[10; 10; 0]; [10; 29; 0]; [69; 29; 0]; [69; 10; 0]];
    [[0; 0; 0]; [0; 9; 0]; [9; 9; 0]; [9; 0; 0]];
    [[175; 200; 200]] ].

Definition demo_world : world := mkWorld [demo_image] [] [].

(** A parallelogram of area 50 whose rectangle, 21 x 6, has an accepted
    aspect ratio, between two other contours. *)
Definition area50 : Contour := [(0, 0); (10, 0); (20, 5); (10, 5)].

Definition area50_image : Mat :=
  [ [[10; 10; 0]; [10; 29; 0]; [69; 29; 0]; [69; 10; 0]];
    [[0; 0; 0]; [10; 0; 0]; [20; 5; 0]; [10; 5; 0]];
    [[100; 100; 0]; [100; 119; 0]; [159; 119; 0]; [159; 100; 0]] ].

Definition demo_result : AnalysisResult :=
  mkResult (Some "Red"%string) [Plate.mk 10 10 60 20].

Definition area50_world : world := mkWorld [area50_image] [] [].

Definition area50_result : AnalysisResult :=
  mkResult None [Plate.mk 10 10 60 20; Plate.mk 100 100 60 20].

Definition photo_txt : Request :=
  mkRequest "POST" [("file"%string, mkFile "photo.txt" ["x"%byte])].

Definition no_file_part : Request :=
  mkRequest "POST" [("upload"%string, mkFile "car.png" ["x"%byte])].

Definition no_selected_file : Request :=
  mkRequest "POST" [("file"%string, mkFile "" [])].

Definition car_png : Request :=
  mkRequest "POST" [("file"%string, mkFile "car.PNG" ["x"%byte])].

(** ** Further notions and inputs *)

(** An upload that passes every check of the view: a POST whose first
    'file' field has a non-empty name with an accepted extension. *)
Definition upload_accepted (request : Request) (file : FileStorage) : Prop :=
  method request = "POST"%string
  /\ getitem (files request) "file" = Ok file
  /\ filename file <> ""%string
  /\ allowed_file (filename file) = Ok true.

(** One-row images for the stand-in, every pixel inside one band. *)
Definition red_image : Mat := [[[175; 200; 200]; [170; 100; 100]]].
Definition blue_image : Mat := [[[120; 200; 200]; [100; 100; 100]]].
Definition green_image : Mat := [[[60; 200; 200]; [40; 50; 50]]].

(** The pixels of [demo_image] in one row, the last one moved to the
    front. *)
Definition shuffled_image : Mat :=
  [ [[175; 200; 200]; [10; 10; 0]; [10; 29; 0]; [69; 29; 0]; [69; 10; 0];
     [0; 0; 0]; [0; 9; 0]; [9; 9; 0]; [9; 0; 0]] ].

(** An image whose second row the stand-in reads as a contour without a
    point. *)
Definition gap_image : Mat :=
  [ [[10; 10; 0]; [10; 29; 0]; [69; 29; 0]; [69; 10; 0]]; [] ].

Definition two_files : Request :=
  mkRequest "POST"
    [("note"%string, mkFile "readme.png" ["x"%byte]);
     ("file"%string, mkFile "car.PNG" ["x"%byte]);
     ("file"%string, mkFile "other.txt" ["y"%byte])].

Definition broken_png : Request :=
  mkRequest "POST" [("file"%string, mkFile "car.png" [])].


(** A grey array: one channel per pixel. *)
Definition grey_image : Mat := [[[7]; [8]]].

(** * Properties *)

(** ** Running the monad *)

Lemma bind_ok {A B} (m : M A) (k : A -> M B) s a s' :
  m s = (Ok a, s') -> bind m k s = k a s'.
Proof. intros E. unfold bind. now rewrite E. Qed.

Lemma bind_raise {A B} (m : M A) (k : A -> M B) s e s' :
  m s = (Raise e, s') -> bind m k s = (Raise e, s').
Proof. intros E. unfold bind. now rewrite E. Qed.

Lemma lookup_snoc_here (h : list Mat) (m : Mat) :
  (h ++ [m]) !! length h = Some m.
Proof. now apply list_lookup_middle. Qed.

Lemma lookup_snoc_old (h : list Mat) (x m : Mat) (l : nat) :
  h !! l = Some m -> (h ++ [x]) !! l = Some m.
Proof. intros E. now apply lookup_app_l_Some. Qed.

Lemma insert_snoc_here (h : list Mat) (x y : Mat) :
  <[length h := y]> (h ++ [x]) = h ++ [y].
Proof.
  rewrite insert_app_r_alt by lia.
  now rewrite Nat.sub_diag.
Qed.

Lemma deref_run s l m :
  heap s !! l = Some m -> deref (Some l) s = (Ok m, s).
Proof. intros E. unfold deref. now rewrite E. Qed.

Ltac heap_lookup :=
  simpl heap;
  repeat first [ apply lookup_snoc_here | apply lookup_snoc_old ];
  try eassumption.

Section AnalyzerFacts.
Context {cv : CV2}.

Lemma cvtColor_run s l m code :
  heap s !! l = Some m ->
  cvt_accepts m = true ->
  cvtColor (Some l) code s =
    (Ok (Some (length (heap s))),
     mkWorld (heap s ++ [match code with
                         | COLOR_BGR2GRAY => cvt_BGR2GRAY m
                         | COLOR_BGR2HSV => cvt_BGR2HSV m
                         end]) (stdout s) (calls s)).
Proof.
  intros E A. unfold cvtColor.
  rewrite (bind_ok _ _ _ _ _ (deref_run _ _ _ E)). rewrite A.
  now destruct code.
Qed.

Lemma GaussianBlur_run s l m ksize sigmaX :
  heap s !! l = Some m ->
  GaussianBlur (Some l) ksize sigmaX s =
    (Ok (Some (length (heap s))),
     mkWorld (heap s ++ [gaussian m ksize sigmaX]) (stdout s) (calls s)).
Proof.
  intros E. unfold GaussianBlur.
  now rewrite (bind_ok _ _ _ _ _ (deref_run _ _ _ E)).
Qed.

Lemma Canny_run s l m t1 t2 :
  heap s !! l = Some m ->
  Canny (Some l) t1 t2 s =
    (Ok (Some (length (heap s))),
     mkWorld (heap s ++ [canny m t1 t2]) (stdout s) (calls s)).
Proof.
  intros E. unfold Canny.
  now rewrite (bind_ok _ _ _ _ _ (deref_run _ _ _ E)).
Qed.

Lemma copy_run s l m :
  heap s !! l = Some m ->
  copy (Some l) s =
    (Ok (Some (length (heap s))),
     mkWorld (heap s ++ [m]) (stdout s) (calls s)).
Proof.
  intros E. unfold copy.
  now rewrite (bind_ok _ _ _ _ _ (deref_run _ _ _ E)).
Qed.

Lemma inRange_run s l m lowerb upperb :
  heap s !! l = Some m ->
  inRange (Some l) lowerb upperb s =
    (Ok (Some (length (heap s))),
     mkWorld (heap s ++ [mask_of m lowerb upperb]) (stdout s) (calls s)).
Proof.
  intros E. unfold inRange.
  now rewrite (bind_ok _ _ _ _ _ (deref_run _ _ _ E)).
Qed.

Lemma countNonZero_run s l m :
  heap s !! l = Some m ->
  countNonZero (Some l) s =
    (Ok (Z.of_nat (length (List.filter nonzero (concat m)))), s).
Proof.
  intros E. unfold countNonZero.
  now rewrite (bind_ok _ _ _ _ _ (deref_run _ _ _ E)).
Qed.

(** [findContours] reads the buffer it is given and overwrites it. *)
Lemma findContours_run s l m :
  heap s !! l = Some m ->
  findContours (Some l) s =
    (Ok (contours m, hierarchy m),
     mkWorld (<[l := contours_scratch m]> (heap s)) (stdout s) (calls s)).
Proof.
  intros E. unfold findContours.
  now rewrite (bind_ok _ _ _ _ _ (deref_run _ _ _ E)).
Qed.

Ltac step lem :=
  etransitivity;
  [ eapply bind_ok; eapply lem; heap_lookup
  | cbn beta; cbn [heap stdout calls] ].

Lemma analyze_image_run (w : world) (l : loc) (img : Mat) :
  heap w !! l = Some img ->
  cvt_accepts img = true ->
  analyze_image (Some l) w =
    (match for_cnt (discovered img) [] with
     | Ok plates =>
         Ok (mkResult (dominant_color (red_count_of img) (blue_count_of img)
                                      (green_count_of img)) plates)
     | Raise e => Raise e
     end,
     mkWorld (heap w ++ derived img) (stdout w) (calls w)).
Proof.
  intros Himg Hacc. unfold analyze_image.
  step cvtColor_run. step GaussianBlur_run. step cvtColor_run.
  step inRange_run. step countNonZero_run.
  step inRange_run. step countNonZero_run.
  step inRange_run. step countNonZero_run.
  step Canny_run. step copy_run. step findContours_run.
  rewrite insert_snoc_here.
  unfold bind, lift, ret. cbn [fst].
  fold (gray_of img) (hsv_of img).
  fold (blur_of img). fold (edges_of img). fold (discovered img).
  replace (heap w ++ derived img) with
    ((((((((heap w ++ [gray_of img]) ++ [blur_of img]) ++ [hsv_of img]) ++
          [mask_of (hsv_of img) (170, 100, 100) (180, 255, 255)]) ++
         [mask_of (hsv_of img) (100, 100, 100) (140, 255, 255)]) ++
        [mask_of (hsv_of img) (40, 50, 50) (80, 255, 255)]) ++
       [edges_of img]) ++ [contours_scratch (edges_of img)])
    by (unfold derived; now rewrite <- !app_assoc).
  now destruct (for_cnt (discovered img) []).
Qed.

Lemma analyze_image_None (w : world) :
  analyze_image None w = (Raise cv2_error, w).
Proof. reflexivity. Qed.

Lemma analyze_image_dangling (w : world) (l : loc) :
  heap w !! l = None -> analyze_image (Some l) w = (Raise cv2_error, w).
Proof.
  intros E. unfold analyze_image, cvtColor.
  apply bind_raise. apply bind_raise. unfold deref. now rewrite E.
Qed.

(** An array that [cvtColor] does not take stops the call at line 22. *)
Lemma analyze_image_refused (w : world) (l : loc) (img : Mat) :
  heap w !! l = Some img ->
  cvt_accepts img = false ->
  analyze_image (Some l) w = (Raise cv2_error, w).
Proof.
  intros E A. unfold analyze_image, cvtColor.
  apply bind_raise.
  rewrite (bind_ok _ _ _ _ _ (deref_run _ _ _ E)). now rewrite A.
Qed.

(** What a call that returns has computed. *)
Lemma analyze_image_Ok (w : world) (image : pyref) (res : AnalysisResult) :
  fst (analyze_image image w) = Ok res ->
  exists l img,
    image = Some l /\ heap w !! l = Some img
    /\ for_cnt (discovered img) [] = Ok (number_plates res)
    /\ color res = dominant_color (red_count_of img) (blue_count_of img)
                                  (green_count_of img).
Proof.
  destruct image as [l|]; [ | rewrite analyze_image_None; discriminate ].
  destruct (heap w !! l) as [img|] eqn:E;
    [ | rewrite analyze_image_dangling by exact E; discriminate ].
  destruct (cvt_accepts img) eqn:A;
    [ | rewrite (analyze_image_refused _ _ _ E A); discriminate ].
  rewrite (analyze_image_run _ _ _ E A). cbn [fst].
  destruct (for_cnt (discovered img) []) as [plates|e] eqn:L;
    [ | discriminate ].
  intros [= <-]. now exists l, img.
Qed.

Lemma analyze_image_Ok_accepts (w : world) (l : loc) (img : Mat)
    (res : AnalysisResult) :
  heap w !! l = Some img ->
  fst (analyze_image (Some l) w) = Ok res ->
  cvt_accepts img = true.
Proof.
  intros E. destruct (cvt_accepts img) eqn:A; [ reflexivity | ].
  rewrite (analyze_image_refused _ _ _ E A). discriminate.
Qed.

End AnalyzerFacts.

(** ** The contour loop *)

Lemma Qltb_lt (a b : Q) : Qltb a b = true <-> (a < b)%Q.
Proof.
  unfold Qltb. rewrite negb_true_iff.
  split.
  - intros E. apply Qnot_le_lt. intros L.
    apply Qle_bool_iff in L. congruence.
  - intros L. destruct (Qle_bool b a) eqn:E; [ | reflexivity ].
    apply Qle_bool_iff in E. exfalso. exact (Qle_not_lt _ _ E L).
Qed.

Lemma keeps_candidate (cnt : Contour) :
  keeps cnt = true <-> plate_candidate cnt.
Proof.
  unfold keeps, plate_candidate.
  rewrite !andb_true_iff, !Qltb_lt. tauto.
Qed.

Lemma for_cnt_height0 (cnt : Contour) cnts acc :
  Plate.h (bounding_plate cnt) = 0 ->
  for_cnt (cnt :: cnts) acc = Raise ZeroDivisionError.
Proof.
  unfold bounding_plate. cbn [for_cnt].
  destruct (boundingRect cnt) as [[[x y] w] h]. cbn [Plate.h].
  intros ->. reflexivity.
Qed.

Lemma for_cnt_step (cnt : Contour) cnts acc :
  Plate.h (bounding_plate cnt) <> 0 ->
  for_cnt (cnt :: cnts) acc =
    for_cnt cnts (if keeps cnt then acc ++ [bounding_plate cnt] else acc).
Proof.
  unfold keeps, aspect, bounding_plate. cbn [for_cnt].
  destruct (boundingRect cnt) as [[[x y] w] h]. cbn [Plate.h Plate.w].
  intros Hh. unfold truediv, float.
  destruct (Z.eqb_spec h 0) as [->|_]; [ contradiction | ].
  now destruct (_ && _).
Qed.

(** The loop returns exactly when no rectangle has height 0, and then it
    has appended the rectangles of the contours that pass the test, in
    order. *)
Lemma for_cnt_Ok_iff cnts : forall acc plates,
  for_cnt cnts acc = Ok plates <->
  Forall (fun cnt => Plate.h (bounding_plate cnt) <> 0) cnts
  /\ plates = acc ++ map bounding_plate (List.filter keeps cnts).
Proof.
  induction cnts as [|cnt cnts IH]; intros acc plates.
  - cbn. rewrite app_nil_r. split.
    + intros [= <-]. now split.
    + intros [_ ->]. reflexivity.
  - destruct (Z.eq_dec (Plate.h (bounding_plate cnt)) 0) as [E|NE].
    + rewrite for_cnt_height0 by exact E. split; [ discriminate | ].
      intros [F _]. apply Forall_cons in F. tauto.
    + rewrite for_cnt_step by exact NE. rewrite IH. rewrite Forall_cons.
      cbn [List.filter]. destruct (keeps cnt).
      * cbn [map]. rewrite <- app_assoc. cbn [app]. tauto.
      * tauto.
Qed.

Lemma filter_keeps cnts :
  map bounding_plate (List.filter keeps cnts) =
  bounding_plate <$> filter plate_candidate cnts.
Proof.
  induction cnts as [|cnt cnts IH]; [ reflexivity | ].
  rewrite filter_cons. cbn [List.filter].
  destruct (keeps cnt) eqn:K.
  - apply keeps_candidate in K. rewrite decide_True by exact K.
    cbn. now rewrite IH.
  - rewrite decide_False; [ exact IH | ].
    intros C. apply keeps_candidate in C. congruence.
Qed.

(** ** Bounding rectangles *)

Lemma fold_min_le l : forall a, fold_left Z.min l a <= a.
Proof.
  induction l as [|b l IH]; intros a; cbn; [ lia | ].
  specialize (IH (Z.min a b)). lia.
Qed.

Lemma fold_max_ge l : forall a, a <= fold_left Z.max l a.
Proof.
  induction l as [|b l IH]; intros a; cbn; [ lia | ].
  specialize (IH (Z.max a b)). lia.
Qed.

Lemma fold_min_nonneg l : forall a,
  0 <= a -> Forall (fun b => 0 <= b) l -> 0 <= fold_left Z.min l a.
Proof.
  induction l as [|b l IH]; intros a Ha F; cbn; [ exact Ha | ].
  apply Forall_cons in F. destruct F as [Hb F].
  apply IH; [ lia | exact F ].
Qed.

(** A contour with a point has a rectangle of at least one pixel each way. *)
Lemma boundingRect_size (cnt : Contour) :
  cnt <> [] ->
  1 <= Plate.w (bounding_plate cnt) /\ 1 <= Plate.h (bounding_plate cnt).
Proof.
  destruct cnt as [|[px py] pts]; [ congruence | intros _ ].
  unfold bounding_plate, boundingRect. cbn [Plate.w Plate.h].
  pose proof (fold_min_le (map fst pts) px).
  pose proof (fold_max_ge (map fst pts) px).
  pose proof (fold_min_le (map snd pts) py).
  pose proof (fold_max_ge (map snd pts) py).
  lia.
Qed.

Lemma boundingRect_empty : bounding_plate [] = Plate.mk 0 0 0 0.
Proof. reflexivity. Qed.

Lemma height0_empty (cnt : Contour) :
  Plate.h (bounding_plate cnt) = 0 <-> cnt = [].
Proof.
  split.
  - intros E. destruct cnt as [|p pts]; [ reflexivity | ].
    assert (N : p :: pts <> []) by discriminate.
    apply boundingRect_size in N. lia.
  - intros ->. reflexivity.
Qed.

Lemma boundingRect_corner (cnt : Contour) :
  Forall (fun pt => 0 <= fst pt /\ 0 <= snd pt) cnt ->
  0 <= Plate.x (bounding_plate cnt) /\ 0 <= Plate.y (bounding_plate cnt).
Proof.
  destruct cnt as [|[px py] pts]; [ cbn; lia | ].
  intros F. apply Forall_cons in F. destruct F as [[Hx Hy] F].
  unfold bounding_plate, boundingRect. cbn [Plate.x Plate.y]. cbn in Hx, Hy.
  split; apply fold_min_nonneg; try assumption.
  - apply Forall_map. eapply Forall_impl; [ exact F | ]. cbn. tauto.
  - apply Forall_map. eapply Forall_impl; [ exact F | ]. cbn. tauto.
Qed.

(** ** The colour bands *)

Lemma filter_nonzero_none {A} (f : A -> Pixel) (P : A -> Prop) (l : list A) :
  (forall a, P a -> nonzero (f a) = false) ->
  Forall P l -> List.filter nonzero (map f l) = [].
Proof.
  intros Hf. induction 1 as [|a l Ha _ IH]; [ reflexivity | ].
  cbn. now rewrite (Hf a Ha).
Qed.

(** A band whose lowest saturation is above every pixel's is empty. *)
Lemma band_count_low_saturation (hsv : Mat) lh ls lv uh us uv bound :
  bound <= ls ->
  Forall (fun px => exists h s v, px = [h; s; v] /\ s < bound) (concat hsv) ->
  band_count hsv (lh, ls, lv) (uh, us, uv) = 0.
Proof.
  intros Hb F. unfold band_count, mask_of.
  rewrite <- concat_map.
  erewrite filter_nonzero_none; [ reflexivity | | exact F ].
  intros px (h & s & v & -> & Hs). unfold inRange_px. cbn.
  destruct (Z.leb_spec ls s) as [L|_]; [ lia | ].
  now rewrite !andb_false_r.
Qed.

Section Claims.
Context {cv : CV2}.

(** C1.  The colour label of a returned analysis is 'Red' exactly when
    the red count strictly exceeds the blue and the green count, and
    likewise 'Blue' and 'Green' for their counts; it is None exactly when
    no count strictly exceeds both others, which covers ties and three
    zero counts.  An image whose every HSV pixel has a saturation below 50,
    such as a uniform grey one, has three zero counts and the label
    None. *)
Theorem dominant_color_label (w : world) (l : loc) (img : Mat)
    (res : AnalysisResult) :
  heap w !! l = Some img ->
  fst (analyze_image (Some l) w) = Ok res ->
  let r := red_count_of img in
  let b := blue_count_of img in
  let g := green_count_of img in
  (color res = Some "Red"%string <-> r > b /\ r > g)
  /\ (color res = Some "Blue"%string <-> b > r /\ b > g)
  /\ (color res = Some "Green"%string <-> g > r /\ g > b)
  /\ (color res = None <->
      ~ (r > b /\ r > g) /\ ~ (b > r /\ b > g) /\ ~ (g > r /\ g > b))
  /\ (Forall (fun px => exists h s v, px = [h; s; v] /\ s < 50)
        (concat (hsv_of img)) ->
      r = 0 /\ b = 0 /\ g = 0 /\ color res = None).
Proof.
  intros Himg Hres. cbn zeta.
  apply analyze_image_Ok in Hres.
  destruct Hres as (l' & img' & [= <-] & Himg' & _ & Hc).
  rewrite Himg in Himg'. injection Himg' as <-.
  assert (Hlow :
    Forall (fun px => exists h s v, px = [h; s; v] /\ s < 50)
      (concat (hsv_of img)) ->
    red_count_of img = 0 /\ blue_count_of img = 0 /\ green_count_of img = 0).
  { intros F. unfold red_count_of, blue_count_of, green_count_of.
    repeat split;
      apply (band_count_low_saturation _ _ _ _ _ _ _ 50); (lia || exact F). }
  rewrite Hc. clear Hc. unfold dominant_color.
  destruct (Z.gtb_spec (red_count_of img) (blue_count_of img));
    destruct (Z.gtb_spec (red_count_of img) (green_count_of img));
    destruct (Z.gtb_spec (blue_count_of img) (red_count_of img));
    destruct (Z.gtb_spec (blue_count_of img) (green_count_of img));
    destruct (Z.gtb_spec (green_count_of img) (red_count_of img));
    destruct (Z.gtb_spec (green_count_of img) (blue_count_of img));
    cbn [andb];
    repeat split; intros;
    try discriminate; try lia; try reflexivity;
    try (destruct (Hlow ltac:(assumption)) as (? & ? & ?); lia).
Qed.

(** C2.  When every discovered contour has a point, as the contours of an
    edge map do, the plate list of a returned analysis is the list of the
    bounding rectangles of exactly the discovered contours with
    2 < w/h < 5 and 100 < area < 5000, the area being the one the contour
    encloses: one rectangle per such contour, in discovery order, equal or
    overlapping rectangles included.  The analysis does return when the
    image is an array [cvtColor] takes. *)
Theorem plate_candidates_filter (w : world) (l : loc) (img : Mat) :
  heap w !! l = Some img ->
  Forall (fun cnt => cnt <> []) (discovered img) ->
  (forall res,
     fst (analyze_image (Some l) w) = Ok res ->
     number_plates res =
       bounding_plate <$> filter plate_candidate (discovered img))
  /\ (cvt_accepts img = true ->
      exists res,
        fst (analyze_image (Some l) w) = Ok res
        /\ number_plates res =
           bounding_plate <$> filter plate_candidate (discovered img)).
Proof.
  intros Himg Hne.
  assert (L : for_cnt (discovered img) [] =
              Ok (map bounding_plate (List.filter keeps (discovered img)))).
  { apply for_cnt_Ok_iff. split; [ | reflexivity ].
    eapply Forall_impl; [ exact Hne | ].
    intros cnt N E. now apply height0_empty in E. }
  split.
  - intros res Hres.
    pose proof (analyze_image_Ok_accepts _ _ _ _ Himg Hres) as Hacc.
    rewrite (analyze_image_run _ _ _ Himg Hacc), L in Hres. cbn [fst] in Hres.
    injection Hres as <-. cbn [number_plates]. apply filter_keeps.
  - intros Hacc. rewrite (analyze_image_run _ _ _ Himg Hacc). cbn [fst].
    rewrite L. eexists. split; [ reflexivity | ].
    cbn [number_plates]. apply filter_keeps.
Qed.


(** C6.  Whatever the call does (return or raise), every buffer that was
    on the heap before it, the caller's image among them, holds afterwards
    what it held before: the heap after the call is the heap before it
    followed by freshly allocated buffers.  Nothing is printed and no call
    is logged. *)
Theorem analyze_image_frame (w : world) (image : pyref) :
  let w' := snd (analyze_image image w) in
  (exists fresh, heap w' = heap w ++ fresh)
  /\ (forall (l : loc) (m : Mat), heap w !! l = Some m -> heap w' !! l = Some m)
  /\ stdout w' = stdout w /\ calls w' = calls w.
Proof.
  cbn zeta.
  assert (E : exists fresh,
    snd (analyze_image image w) =
    mkWorld (heap w ++ fresh) (stdout w) (calls w)).
  { destruct image as [l|].
    - destruct (heap w !! l) as [img|] eqn:Himg.
      + destruct (cvt_accepts img) eqn:Hacc.
        * exists (derived img).
          now rewrite (analyze_image_run _ _ _ Himg Hacc).
        * exists []. rewrite (analyze_image_refused _ _ _ Himg Hacc).
          cbn. rewrite app_nil_r. now destruct w.
      + exists []. rewrite analyze_image_dangling by exact Himg.
        cbn. rewrite app_nil_r. now destruct w.
    - exists []. rewrite analyze_image_None.
      cbn. rewrite app_nil_r. now destruct w. }
  destruct E as [fresh ->]. cbn [heap stdout calls].
  repeat split.
  - now exists fresh.
  - intros l m Hl. now apply lookup_app_l_Some.
Qed.

(** C7.  No rectangle of a returned plate list is a square: its aspect
    ratio w/h is not 1 (it is above 2), whatever the area. *)
Theorem no_square_plate (w : world) (image : pyref) (res : AnalysisResult)
    (p : Plate.t) :
  fst (analyze_image image w) = Ok res ->
  In p (number_plates res) ->
  ~ (aspect p == 1)%Q /\ Plate.w p <> Plate.h p.
Proof.
  intros Hres Hp.
  apply analyze_image_Ok in Hres.
  destruct Hres as (l & img & _ & _ & L & _).
  apply for_cnt_Ok_iff in L. destruct L as [_ L].
  rewrite L in Hp. cbn [app] in Hp.
  apply in_map_iff in Hp. destruct Hp as (cnt & <- & Hc).
  apply filter_In in Hc. destruct Hc as [_ K].
  apply keeps_candidate in K. destruct K as [[K2 _] _].
  assert (N1 : ~ (aspect (bounding_plate cnt) == 1)%Q).
  { intros E. rewrite E in K2. discriminate K2. }
  split; [ exact N1 | ].
  intros E. apply N1. unfold aspect in *. rewrite E in *.
  apply Qmult_inv_r. intros Z0. rewrite Z0 in K2. discriminate K2.
Qed.

(** C8.  A discovered contour that encloses an area of exactly 50 or
    exactly 10000 fails the filter and contributes nothing: the returned
    plate list is the one the loop builds from the other contours alone,
    whatever the contour's aspect ratio. *)
Theorem area_50_or_10000_excluded (w : world) (l : loc) (img : Mat)
    (res : AnalysisResult) (before after : list Contour) (cnt : Contour) :
  heap w !! l = Some img ->
  discovered img = before ++ cnt :: after ->
  (contourArea cnt == 50 \/ contourArea cnt == 10000)%Q ->
  fst (analyze_image (Some l) w) = Ok res ->
  ~ plate_candidate cnt
  /\ for_cnt (before ++ after) [] = Ok (number_plates res).
Proof.
  intros Himg Hd Ha Hres.
  assert (K : keeps cnt = false).
  { destruct (keeps cnt) eqn:K; [ | reflexivity ].
    apply keeps_candidate in K. destruct K as [_ [K1 K2]].
    destruct Ha as [E|E]; rewrite E in K1, K2;
      [ discriminate K1 | discriminate K2 ]. }
  split.
  { intros C. apply keeps_candidate in C. congruence. }
  apply analyze_image_Ok in Hres.
  destruct Hres as (l' & img' & [= <-] & Himg' & L & _).
  rewrite Himg in Himg'. injection Himg' as <-.
  rewrite Hd in L. apply for_cnt_Ok_iff in L. destruct L as [F L].
  apply for_cnt_Ok_iff. split.
  - apply Forall_app in F. destruct F as [F1 F2].
    apply Forall_cons in F2. destruct F2 as [_ F2].
    apply Forall_app. now split.
  - rewrite L. rewrite !List.filter_app. cbn [List.filter]. now rewrite K.
Qed.

(** C10.  When the points of the discovered contours have non-negative
    coordinates (they are pixels of the image), every rectangle of a
    returned plate list has x >= 0, y >= 0, w >= 1 and h >= 1; its
    aspect ratio w/h is a quotient by a non-zero height. *)
Theorem plate_rectangle_bounds (w : world) (l : loc) (img : Mat)
    (res : AnalysisResult) :
  heap w !! l = Some img ->
  Forall (Forall (fun pt : Point => 0 <= fst pt /\ 0 <= snd pt))
    (discovered img) ->
  fst (analyze_image (Some l) w) = Ok res ->
  Forall (fun p => 0 <= Plate.x p /\ 0 <= Plate.y p
                   /\ 1 <= Plate.w p /\ 1 <= Plate.h p)
    (number_plates res).
Proof.
  intros Himg Hpts Hres.
  apply analyze_image_Ok in Hres.
  destruct Hres as (l' & img' & [= <-] & Himg' & L & _).
  rewrite Himg in Himg'. injection Himg' as <-.
  apply for_cnt_Ok_iff in L. destruct L as [F ->]. cbn [app].
  apply Forall_map. apply Forall_forall. intros cnt Hc.
  apply list_elem_of_In in Hc. apply filter_In in Hc. destruct Hc as [Hc _].
  rewrite Forall_forall in F, Hpts.
  apply list_elem_of_In in Hc.
  specialize (F _ Hc). specialize (Hpts _ Hc).
  assert (N : cnt <> []) by (intros E; now apply height0_empty in E).
  pose proof (boundingRect_size cnt N).
  pose proof (boundingRect_corner cnt Hpts).
  cbn. lia.
Qed.

End Claims.

(** ** File names *)

Lemma lower_ascii_dot (a : ascii) :
  Ascii.eqb (lower_ascii a) "." = Ascii.eqb a ".".
Proof. destruct a as [[] [] [] [] [] [] [] []]; reflexivity. Qed.

Lemma lower_ascii_idem (a : ascii) :
  lower_ascii (lower_ascii a) = lower_ascii a.
Proof. destruct a as [[] [] [] [] [] [] [] []]; reflexivity. Qed.

Lemma lower_idem (s : string) : lower (lower s) = lower s.
Proof.
  induction s as [|a s IH]; [ reflexivity | ].
  cbn. now rewrite lower_ascii_idem, IH.
Qed.

Lemma contains_lower (s : string) :
  contains "." (lower s) = contains "." s.
Proof.
  induction s as [|a s IH]; [ reflexivity | ].
  cbn. now rewrite lower_ascii_dot, IH.
Qed.

Lemma contains_app (c : ascii) (s t : string) :
  contains c (s ++ t) = contains c s || contains c t.
Proof.
  induction s as [|a s IH]; [ reflexivity | ].
  cbn. rewrite IH. now rewrite orb_assoc.
Qed.

(** Without the separator there is one piece, the string itself. *)
Lemma rsplit1_absent (sep : ascii) (s : string) :
  contains sep s = false -> rsplit1 sep s = [s].
Proof.
  induction s as [|a s IH]; [ reflexivity | ].
  cbn. intros E. apply orb_false_iff in E. destruct E as [Ea Es].
  rewrite (IH Es). now rewrite Ea.
Qed.

(** With the separator there are two pieces, cut at its last occurrence. *)
Lemma rsplit1_present (sep : ascii) (s : string) :
  contains sep s = true ->
  exists stem ext,
    rsplit1 sep s = [stem; ext]
    /\ s = (stem ++ String sep ext)%string /\ contains sep ext = false.
Proof.
  induction s as [|a s IH]; [ discriminate | ].
  cbn. destruct (contains sep s) eqn:Es.
  - intros _. destruct (IH eq_refl) as (stem & ext & -> & -> & Hext).
    exists (String a stem), ext. now repeat split.
  - rewrite orb_false_r. intros Ea. rewrite (rsplit1_absent _ _ Es), Ea.
    apply Ascii.eqb_eq in Ea. subst a.
    exists EmptyString, s. now repeat split.
Qed.

Lemma rsplit1_cut (sep : ascii) (stem ext : string) :
  contains sep ext = false ->
  rsplit1 sep (stem ++ String sep ext) = [stem; ext].
Proof.
  intros Hext. induction stem as [|a stem IH].
  - cbn. now rewrite (rsplit1_absent _ _ Hext), Ascii.eqb_refl.
  - cbn. now rewrite IH.
Qed.

Lemma rsplit1_lower (s : string) :
  rsplit1 "." (lower s) = map lower (rsplit1 "." s).
Proof.
  induction s as [|a s IH]; [ reflexivity | ].
  cbn. rewrite IH, lower_ascii_dot.
  destruct (rsplit1 "." s) as [|x [|y [|z r]]]; cbn; try reflexivity;
    now destruct (Ascii.eqb a ".").
Qed.

Lemma extension_test (ext : string) :
  existsb (String.eqb (lower ext)) ["png"; "jpg"; "jpeg"]%string = true
  <-> accepted_extension ext.
Proof.
  unfold accepted_extension. cbn [existsb].
  rewrite orb_false_r, !orb_true_iff, !String.eqb_eq. tauto.
Qed.

Lemma allowed_file_lower (name : string) :
  allowed_file (lower name) = allowed_file name.
Proof.
  unfold allowed_file. rewrite contains_lower, rsplit1_lower.
  destruct (contains "." name) eqn:C; [ | reflexivity ].
  destruct (rsplit1_present _ _ C) as (stem & ext & -> & _ & _).
  cbn. now rewrite lower_idem.
Qed.

(** C9.  [allowed_file] always returns a boolean, and it is True exactly
    when the name has a dot and what follows its last dot, lowercased, is
    'png', 'jpg' or 'jpeg'.  A name without a dot is rejected, and two
    names that differ in letter case only get the same answer. *)
Theorem allowed_file_spec (name : string) :
  (exists b, allowed_file name = Ok b)
  /\ (allowed_file name = Ok true <->
      exists ext, after_last_dot name ext /\ accepted_extension ext)
  /\ (contains "." name = false -> allowed_file name = Ok false)
  /\ (forall name', lower name' = lower name ->
      allowed_file name' = allowed_file name).
Proof.
  repeat split.
  - unfold allowed_file. destruct (contains "." name) eqn:C; [ | eauto ].
    destruct (rsplit1_present _ _ C) as (stem & ext & -> & _ & _).
    cbn. eauto.
  - unfold allowed_file. destruct (contains "." name) eqn:C; [ | discriminate ].
    destruct (rsplit1_present _ _ C) as (stem & ext & -> & E & Hext).
    cbn. intros [= T]. exists ext. split.
    + now exists stem.
    + now apply extension_test.
  - intros (ext & (stem & -> & Hext) & A).
    unfold allowed_file.
    rewrite contains_app. cbn [contains]. rewrite Ascii.eqb_refl.
    rewrite orb_true_r. rewrite (rsplit1_cut _ _ _ Hext). cbn.
    apply extension_test in A. cbn in A. now rewrite A.
  - intros C. unfold allowed_file. now rewrite C.
  - intros name' E.
    rewrite <- (allowed_file_lower name'), <- (allowed_file_lower name).
    now rewrite E.
Qed.

(** ** The view *)

Section ViewClaims.
Context {cv : CV2}.

Lemma getitem_has_key (d : list (string * FileStorage)) key file :
  getitem d key = Ok file -> has_key key d = true.
Proof.
  induction d as [|[k v] d IH]; [ discriminate | ].
  cbn. destruct (String.eqb k key); [ reflexivity | exact IH ].
Qed.

(** C5, as the code has it.  A POST without a 'file' field is answered
    with index.html and the error 'No file part'; a POST whose file has an
    empty name, with index.html and 'No selected file'.  In both cases the
    heap and the call log are as before (nothing is read, decoded,
    allocated or analysed); the one effect on the server is that
    request.files was printed to the standard output. *)
Theorem upload_without_file (w : world) (request : Request) :
  method request = "POST"%string ->
  (has_key "file" (files request) = false ->
   index request w =
     (Ok (render_template "index.html"
            [("error"%string, CtxStr "No file part")]),
      mkWorld (heap w) (stdout w ++ [files request]) (calls w)))
  /\ (forall file,
        getitem (files request) "file" = Ok file ->
        filename file = ""%string ->
        index request w =
          (Ok (render_template "index.html"
                 [("error"%string, CtxStr "No selected file")]),
           mkWorld (heap w) (stdout w ++ [files request]) (calls w))).
Proof.
  intros Hm. split.
  - intros Hk. unfold index, post_block. rewrite Hm, Hk. reflexivity.
  - intros file Hg Hf. unfold index, post_block.
    rewrite Hm, (getitem_has_key _ _ _ Hg). cbn [String.eqb negb].
    unfold bind, print, lift, ret. cbn.
    rewrite Hg, Hf. reflexivity.
Qed.

(** C3, at the failing upload.  A POST of a file named photo.txt is
    answered with index.html and no error at all, the answer a GET gets;
    the heap and the call log are as before, so the analysis was not
    called. *)
Theorem photo_txt_plain_form (w : world) :
  index photo_txt w =
    (Ok (render_template "index.html" []),
     mkWorld (heap w) (stdout w ++ [files photo_txt]) (calls w))
  /\ index (mkRequest "GET" []) w = (Ok (render_template "index.html" []), w).
Proof. split; reflexivity. Qed.

End ViewClaims.

(** An accepted upload is read, decoded and analysed, and the call log
    says so. *)
Example index_car_png :
  index (cv := toy_cv) car_png empty_world =
    (Ok (render_template "result.html"
           [("result"%string,
             CtxResult (mkResult (Some "Blue"%string) []))]),
     mkWorld ([[[[120; 120; 120]]]] ++ derived (cv := toy_cv) [[[120; 120; 120]]])
       [files car_png]
       [Call_read "car.PNG"; Call_analyze_image (Some 0%nat)]).
Proof. reflexivity. Qed.

(** [findContours] does overwrite the buffer it is given: called on the
    image itself, it would destroy it. *)
Example findContours_overwrites :
  heap (snd (findContours (cv := toy_cv) (Some 0%nat) demo_world)) !! 0%nat
  = Some [].
Proof. reflexivity. Qed.

(** ** The claims at concrete inputs *)

Lemma dominant_color_label_witness :
  heap demo_world !! 0%nat = Some demo_image
  /\ fst (analyze_image (cv := toy_cv) (Some 0%nat) demo_world) = Ok demo_result
  /\ (color demo_result = Some "Red"%string <->
      red_count_of (cv := toy_cv) demo_image
        > blue_count_of (cv := toy_cv) demo_image
      /\ red_count_of (cv := toy_cv) demo_image
          > green_count_of (cv := toy_cv) demo_image).
Proof.
  split; [ reflexivity | ]. split; [ reflexivity | ].
  exact (proj1 (dominant_color_label (cv := toy_cv) demo_world 0%nat
                  demo_image demo_result eq_refl eq_refl)).
Defined.

Lemma plate_candidates_filter_witness :
  exists res,
    fst (analyze_image (cv := toy_cv) (Some 0%nat) demo_world) = Ok res
    /\ number_plates res =
       bounding_plate <$>
         filter plate_candidate (discovered (cv := toy_cv) demo_image).
Proof.
  destruct (plate_candidates_filter (cv := toy_cv) demo_world 0%nat
              demo_image) as [_ Hreturns].
  - reflexivity.
  - repeat constructor; discriminate.
  - apply Hreturns. reflexivity.
Defined.


Lemma analyze_image_frame_witness :
  heap (snd (analyze_image (cv := toy_cv) (Some 0%nat) demo_world)) !! 0%nat
  = Some demo_image.
Proof.
  destruct (analyze_image_frame (cv := toy_cv) demo_world (Some 0%nat))
    as (_ & H & _).
  apply H. reflexivity.
Defined.

Lemma no_square_plate_witness :
  fst (analyze_image (cv := toy_cv) (Some 0%nat) demo_world) = Ok demo_result
  /\ In (Plate.mk 10 10 60 20) (number_plates demo_result)
  /\ ~ (aspect (Plate.mk 10 10 60 20) == 1)%Q /\ 60 <> 20.
Proof.
  split; [ reflexivity | ]. split; [ now left | ].
  apply (no_square_plate (cv := toy_cv) demo_world (Some 0%nat) demo_result
           (Plate.mk 10 10 60 20)).
  - reflexivity.
  - now left.
Defined.

Lemma area_50_or_10000_excluded_witness :
  (contourArea area50 == 50)%Q
  /\ (2 < aspect (bounding_plate area50) /\ aspect (bounding_plate area50) < 5)%Q
  /\ ~ plate_candidate area50
  /\ for_cnt
       ([[(10, 10); (10, 29); (69, 29); (69, 10)]]
        ++ [[(100, 100); (100, 119); (159, 119); (159, 100)]]) []
     = Ok (number_plates area50_result).
Proof.
  split; [ reflexivity | ]. split; [ split; reflexivity | ].
  apply (area_50_or_10000_excluded (cv := toy_cv) area50_world 0%nat
           area50_image area50_result
           [[(10, 10); (10, 29); (69, 29); (69, 10)]]
           [[(100, 100); (100, 119); (159, 119); (159, 100)]] area50).
  - reflexivity.
  - reflexivity.
  - left. reflexivity.
  - reflexivity.
Defined.

Lemma plate_rectangle_bounds_witness :
  Forall (fun p => 0 <= Plate.x p /\ 0 <= Plate.y p
                   /\ 1 <= Plate.w p /\ 1 <= Plate.h p)
    (number_plates demo_result).
Proof.
  apply (plate_rectangle_bounds (cv := toy_cv) demo_world 0%nat demo_image).
  - reflexivity.
  - repeat (constructor; try (cbn; lia)).
  - reflexivity.
Defined.

(** C5 as stated fails: both error paths come after the print of line
    77, so the standard output of the server has grown. *)
Lemma error_paths_print :
  stdout (snd (index (cv := toy_cv) no_file_part empty_world))
  = [files no_file_part]
  /\ stdout (snd (index (cv := toy_cv) no_file_part empty_world))
     <> stdout empty_world
  /\ stdout (snd (index (cv := toy_cv) no_selected_file empty_world))
     <> stdout empty_world.
Proof. repeat split; discriminate. Qed.

Lemma upload_without_file_witness :
  index (cv := toy_cv) no_file_part empty_world =
    (Ok (render_template "index.html"
           [("error"%string, CtxStr "No file part")]),
     mkWorld [] [files no_file_part] [])
  /\ index (cv := toy_cv) no_selected_file empty_world =
      (Ok (render_template "index.html"
             [("error"%string, CtxStr "No selected file")]),
       mkWorld [] [files no_selected_file] []).
Proof.
  split.
  - apply (upload_without_file (cv := toy_cv) empty_world no_file_part);
      reflexivity.
  - apply (proj2 (upload_without_file (cv := toy_cv) empty_world
                    no_selected_file eq_refl) (mkFile "" []));
      reflexivity.
Defined.

Lemma allowed_file_spec_witness :
  allowed_file "photo" = Ok false
  /\ allowed_file "PHOTO.JPG" = allowed_file "photo.jpg"
  /\ allowed_file "car.tar.Jpeg" = Ok true.
Proof.
  destruct (allowed_file_spec "photo") as (_ & _ & Hnodot & _).
  destruct (allowed_file_spec "photo.jpg") as (_ & _ & _ & Hcase).
  destruct (allowed_file_spec "car.tar.Jpeg") as (_ & Hiff & _).
  split; [ | split ].
  - apply Hnodot. reflexivity.
  - apply Hcase. reflexivity.
  - apply Hiff. exists "Jpeg"%string. split.
    + exists "car.tar"%string. split; reflexivity.
    + right. right. reflexivity.
Defined.

(** * Further properties of the code *)

(** ** analyze_image: outcomes *)

(** The loop raises exactly on a contour without a point, and then it is
    a ZeroDivisionError. *)
Lemma for_cnt_Raise_iff cnts : forall acc e,
  for_cnt cnts acc = Raise e <-> e = ZeroDivisionError /\ In [] cnts.
Proof.
  induction cnts as [|cnt cnts IH]; intros acc e.
  - cbn. split; [ discriminate | tauto ].
  - destruct (Z.eq_dec (Plate.h (bounding_plate cnt)) 0) as [E|NE].
    + rewrite for_cnt_height0 by exact E. apply height0_empty in E.
      subst cnt. split.
      * intros [= <-]. split; [ reflexivity | now left ].
      * intros [-> _]. reflexivity.
    + rewrite for_cnt_step by exact NE. rewrite IH. cbn [In].
      assert (N : cnt <> []) by (intros C; now apply height0_empty in C).
      tauto.
Qed.

Section Outcomes.
Context {cv : CV2}.

(** X1.  The analysis returns exactly when the image is a live array that
    [cvtColor] takes and every discovered contour has a point.  It raises
    cv2.error exactly when the image is None, not a buffer, or an array
    [cvtColor] refuses (empty, or not of three or four channels);
    ZeroDivisionError exactly when the image is taken and some discovered
    contour has no point; and never anything else. *)
Theorem analysis_outcome (w : world) (image : pyref) :
  ((exists res, fst (analyze_image image w) = Ok res) <->
   exists l img, image = Some l /\ heap w !! l = Some img
                 /\ cvt_accepts img = true
                 /\ Forall (fun cnt => cnt <> []) (discovered img))
  /\ (fst (analyze_image image w) = Raise cv2_error <->
      image = None
      \/ (exists l, image = Some l /\ heap w !! l = None)
      \/ (exists l img, image = Some l /\ heap w !! l = Some img
                        /\ cvt_accepts img = false))
  /\ (fst (analyze_image image w) = Raise ZeroDivisionError <->
      exists l img, image = Some l /\ heap w !! l = Some img
                    /\ cvt_accepts img = true
                    /\ In [] (discovered img))
  /\ (forall e, fst (analyze_image image w) = Raise e ->
      e = cv2_error \/ e = ZeroDivisionError).
Proof.
  destruct image as [l|].
  - destruct (heap w !! l) as [img|] eqn:Himg.
    + destruct (cvt_accepts img) eqn:Hacc.
      * rewrite (analyze_image_run _ _ _ Himg Hacc). cbn [fst].
        destruct (for_cnt (discovered img) []) as [plates|e] eqn:L.
        -- pose proof (proj1 (for_cnt_Ok_iff _ _ _) L) as [F _].
           assert (Hne : Forall (fun cnt => cnt <> []) (discovered img)).
           { eapply Forall_impl; [ exact F | ].
             intros cnt N C. apply N. now apply height0_empty. }
           split; [ | split; [ | split ] ].
           ++ split; [ intros _; now exists l, img | eauto ].
           ++ split; [ discriminate | ].
              intros [C | [(l' & [= <-] & C) | (l' & i' & [= <-] & C & A)]];
                congruence.
           ++ split; [ discriminate | ].
              intros (l' & img' & [= <-] & Hl & _ & Hin).
              rewrite Himg in Hl. injection Hl as <-.
              rewrite Forall_forall in Hne.
              apply list_elem_of_In in Hin. now apply Hne in Hin.
           ++ discriminate.
        -- pose proof (proj1 (for_cnt_Raise_iff _ _ _) L) as [-> Hin].
           split; [ | split; [ | split ] ].
           ++ split; [ intros [res C]; discriminate C | ].
              intros (l' & img' & [= <-] & Hl & _ & F).
              rewrite Himg in Hl. injection Hl as <-.
              rewrite Forall_forall in F.
              apply list_elem_of_In in Hin. now apply F in Hin.
           ++ split; [ discriminate | ].
              intros [C | [(l' & [= <-] & C) | (l' & i' & [= <-] & C & A)]];
                congruence.
           ++ split; [ intros _; now exists l, img | reflexivity ].
           ++ intros e [= <-]. now right.
      * rewrite (analyze_image_refused _ _ _ Himg Hacc). cbn [fst].
        split; [ | split; [ | split ] ].
        -- split; [ intros [res C]; discriminate C | ].
           intros (l' & img' & [= <-] & Hl & A & _). congruence.
        -- split; [ intros _; right; right; now exists l, img
                  | reflexivity ].
        -- split; [ discriminate | ].
           intros (l' & img' & [= <-] & Hl & A & _). congruence.
        -- intros e [= <-]. now left.
    + rewrite analyze_image_dangling by exact Himg. cbn [fst].
      split; [ | split; [ | split ] ].
      * split; [ intros [res C]; discriminate C | ].
        intros (l' & img' & [= <-] & Hl & _). congruence.
      * split; [ intros _; right; left; now exists l | reflexivity ].
      * split; [ discriminate | ].
        intros (l' & img' & [= <-] & Hl & _). congruence.
      * intros e [= <-]. now left.
  - rewrite analyze_image_None. cbn [fst].
    split; [ | split; [ | split ] ].
    + split; [ intros [res C]; discriminate C | ].
      intros (l' & img' & C & _). discriminate C.
    + split; [ intros _; now left | reflexivity ].
    + split; [ discriminate | ].
      intros (l' & img' & C & _). discriminate C.
    + intros e [= <-]. now left.
Qed.

(** X2.  The outcome is a function of the image's content alone: two
    buffers with the same content, wherever they live, are analysed alike,
    and analysing again after a call gives the outcome of the first
    call. *)
Theorem analysis_depends_on_content (w1 w2 : world) (l1 l2 : loc) (img : Mat) :
  heap w1 !! l1 = Some img ->
  heap w2 !! l2 = Some img ->
  fst (analyze_image (Some l1) w1) = fst (analyze_image (Some l2) w2)
  /\ fst (analyze_image (Some l1) (snd (analyze_image (Some l1) w1)))
     = fst (analyze_image (Some l1) w1).
Proof.
  intros H1 H2. destruct (cvt_accepts img) eqn:Hacc.
  - rewrite (analyze_image_run _ _ _ H1 Hacc),
      (analyze_image_run _ _ _ H2 Hacc).
    split; [ reflexivity | ].
    cbn [fst snd].
    assert (H1' :
      heap (mkWorld (heap w1 ++ derived img) (stdout w1) (calls w1))
        !! l1 = Some img)
      by (cbn [heap]; now apply lookup_app_l_Some).
    now rewrite (analyze_image_run _ _ _ H1' Hacc).
  - rewrite (analyze_image_refused _ _ _ H1 Hacc),
      (analyze_image_refused _ _ _ H2 Hacc).
    split; [ reflexivity | ].
    cbn [fst snd]. now rewrite (analyze_image_refused _ _ _ H1 Hacc).
Qed.

(** X3.  A call on a live array that [cvtColor] takes leaves exactly eight
    new buffers behind, whether the loop returns or raises; the edge map
    is among them as Canny produced it, because [findContours] ran on its
    copy.  A call on None, on a location that holds nothing or on an
    array [cvtColor] refuses changes nothing at all. *)
Theorem analysis_allocation (w : world) (image : pyref) :
  (forall l img,
     image = Some l -> heap w !! l = Some img -> cvt_accepts img = true ->
     length (heap (snd (analyze_image image w))) = (length (heap w) + 8)%nat
     /\ heap (snd (analyze_image image w)) !! (length (heap w) + 6)%nat
        = Some (edges_of img)
     /\ heap (snd (analyze_image image w)) !! (length (heap w) + 7)%nat
        = Some (contours_scratch (edges_of img)))
  /\ ((image = None
       \/ (exists l, image = Some l /\ heap w !! l = None)
       \/ (exists l img, image = Some l /\ heap w !! l = Some img
                         /\ cvt_accepts img = false)) ->
      snd (analyze_image image w) = w).
Proof.
  split.
  - intros l img -> Himg Hacc. rewrite (analyze_image_run _ _ _ Himg Hacc).
    cbn [snd heap]. repeat split.
    + rewrite length_app. reflexivity.
    + rewrite lookup_app_r by lia.
      now replace (length (heap w) + 6 - length (heap w))%nat with 6%nat by lia.
    + rewrite lookup_app_r by lia.
      now replace (length (heap w) + 7 - length (heap w))%nat with 7%nat by lia.
  - intros [-> | [(l & -> & Hl) | (l & img & -> & Hl & Hacc)]].
    + now rewrite analyze_image_None.
    + now rewrite analyze_image_dangling.
    + now rewrite (analyze_image_refused _ _ _ Hl Hacc).
Qed.

End Outcomes.

(** ** analyze_image: the colour counts *)

Lemma filter_map_length {A B} (f : A -> B) (g : B -> bool) (l : list A) :
  length (List.filter g (map f l)) = length (List.filter (fun a => g (f a)) l).
Proof.
  induction l as [|a l IH]; [ reflexivity | ].
  cbn. destruct (g (f a)); cbn; now rewrite IH.
Qed.

(** A band count is the number of pixels that lie within the bounds. *)
Lemma band_count_within (hsv : Mat) (lowerb upperb : Z * Z * Z) :
  band_count hsv lowerb upperb =
  Z.of_nat (length (List.filter
                      (fun p => within p (Scalar lowerb) (Scalar upperb))
                      (concat hsv))).
Proof.
  unfold band_count, mask_of. rewrite <- concat_map, filter_map_length.
  f_equal. f_equal. apply List.filter_ext. intros p. unfold inRange_px.
  now destruct (within p (Scalar lowerb) (Scalar upperb)).
Qed.

Lemma band_count_range (hsv : Mat) (lowerb upperb : Z * Z * Z) :
  0 <= band_count hsv lowerb upperb <= Z.of_nat (length (concat hsv)).
Proof.
  rewrite band_count_within. split.
  - apply Nat2Z.is_nonneg.
  - apply Nat2Z.inj_le. apply List.filter_length_le.
Qed.

Lemma within_head (v : Z) (p : Pixel) (l u : Z) (lo hi : list Z) :
  within (v :: p) (l :: lo) (u :: hi) = true -> l <= v <= u.
Proof.
  cbn. rewrite !andb_true_iff, !Z.leb_le. tauto.
Qed.

Lemma within_hsv (h s v lh ls lv uh us uv : Z) :
  within [h; s; v] (Scalar (lh, ls, lv)) (Scalar (uh, us, uv)) = true
  <-> (lh <= h <= uh) /\ (ls <= s <= us) /\ (lv <= v <= uv).
Proof.
  cbn. rewrite !andb_true_iff, !Z.leb_le. tauto.
Qed.

(** The three hue intervals are disjoint: a pixel with a hue lies in at
    most one band. *)
Lemma bands_disjoint (l : list Pixel) :
  Forall (fun px => px <> []) l ->
  Z.of_nat (length (List.filter
     (fun p => within p (Scalar (170, 100, 100)) (Scalar (180, 255, 255))) l))
  + Z.of_nat (length (List.filter
     (fun p => within p (Scalar (100, 100, 100)) (Scalar (140, 255, 255))) l))
  + Z.of_nat (length (List.filter
     (fun p => within p (Scalar (40, 50, 50)) (Scalar (80, 255, 255))) l))
  <= Z.of_nat (length l).
Proof.
  induction 1 as [|px l Hpx _ IH]; [ reflexivity | ].
  destruct px as [|v p]; [ congruence | ].
  cbn [List.filter].
  destruct (within (v :: p) (Scalar (170, 100, 100)) (Scalar (180, 255, 255)))
    eqn:R;
  destruct (within (v :: p) (Scalar (100, 100, 100)) (Scalar (140, 255, 255)))
    eqn:B;
  destruct (within (v :: p) (Scalar (40, 50, 50)) (Scalar (80, 255, 255)))
    eqn:G;
  try apply within_head in R; try apply within_head in B;
  try apply within_head in G; cbn [length]; lia.
Qed.

Lemma filter_all {A} (f : A -> bool) (l : list A) :
  Forall (fun a => f a = true) l -> List.filter f l = l.
Proof.
  induction 1 as [|a l Ha _ IH]; [ reflexivity | ].
  cbn. now rewrite Ha, IH.
Qed.

Lemma filter_none {A} (f : A -> bool) (l : list A) :
  Forall (fun a => f a = false) l -> List.filter f l = [].
Proof.
  induction 1 as [|a l Ha _ IH]; [ reflexivity | ].
  cbn. now rewrite Ha.
Qed.

Lemma filter_length_perm {A} (f : A -> bool) (l l' : list A) :
  Permutation l l' -> length (List.filter f l) = length (List.filter f l').
Proof.
  induction 1 as [|a l l' _ IH|a b l|l l' l'' _ IH1 _ IH2].
  - reflexivity.
  - cbn. destruct (f a); cbn; now rewrite IH.
  - cbn. destruct (f a), (f b); reflexivity.
  - now rewrite IH1.
Qed.

Lemma dominant_color_single (n : Z) :
  0 < n ->
  dominant_color n 0 0 = Some "Red"%string
  /\ dominant_color 0 n 0 = Some "Blue"%string
  /\ dominant_color 0 0 n = Some "Green"%string.
Proof.
  intros Hn. unfold dominant_color.
  destruct (Z.gtb_spec n 0); [ | lia ].
  destruct (Z.gtb_spec 0 n); [ lia | ].
  destruct (Z.gtb_spec 0 0); [ lia | ].
  now cbn.
Qed.

Section Counts.
Context {cv : CV2}.

(** X4.  Each of the three counts lies between 0 and the number of
    pixels, and on an HSV image whose pixels have a hue channel the bands
    do not overlap: the three counts together do not exceed the number of
    pixels. *)
Theorem counts_bounded (img : Mat) :
  let n := Z.of_nat (length (concat (hsv_of img))) in
  (0 <= red_count_of img <= n)
  /\ (0 <= blue_count_of img <= n)
  /\ (0 <= green_count_of img <= n)
  /\ (Forall (fun px => px <> []) (concat (hsv_of img)) ->
      red_count_of img + blue_count_of img + green_count_of img <= n).
Proof.
  cbn zeta. unfold red_count_of, blue_count_of, green_count_of.
  repeat split; try apply band_count_range.
  intros F. rewrite !band_count_within.
  exact (bands_disjoint _ F).
Qed.

(** X5.  An image that has pixels, all of them inside the red band of HSV
    (hue 170..180, saturation and value 100..255), is labelled 'Red'; all
    inside the blue band (hue 100..140, saturation and value 100..255),
    'Blue'; all inside the green band (hue 40..80, saturation and value
    50..255), 'Green'. *)
Theorem uniform_band_label (w : world) (l : loc) (img : Mat)
    (res : AnalysisResult) :
  heap w !! l = Some img ->
  fst (analyze_image (Some l) w) = Ok res ->
  concat (hsv_of img) <> [] ->
  (Forall (fun px => exists h s v, px = [h; s; v]
             /\ 170 <= h <= 180 /\ 100 <= s <= 255 /\ 100 <= v <= 255)
     (concat (hsv_of img)) -> color res = Some "Red"%string)
  /\ (Forall (fun px => exists h s v, px = [h; s; v]
                /\ 100 <= h <= 140 /\ 100 <= s <= 255 /\ 100 <= v <= 255)
        (concat (hsv_of img)) -> color res = Some "Blue"%string)
  /\ (Forall (fun px => exists h s v, px = [h; s; v]
                /\ 40 <= h <= 80 /\ 50 <= s <= 255 /\ 50 <= v <= 255)
        (concat (hsv_of img)) -> color res = Some "Green"%string).
Proof.
  intros Himg Hres Hne.
  apply analyze_image_Ok in Hres.
  destruct Hres as (l' & img' & [= <-] & Himg' & _ & ->).
  rewrite Himg in Himg'. injection Himg' as <-.
  unfold red_count_of, blue_count_of, green_count_of.
  rewrite !band_count_within.
  assert (Hn : 0 < Z.of_nat (length (concat (hsv_of img))))
    by (destruct (concat (hsv_of img)); [ congruence | cbn; lia ]).
  destruct (dominant_color_single _ Hn) as (DR & DB & DG).
  repeat split; intros F.
  - rewrite (filter_all _ (concat (hsv_of img))),
      (filter_none (fun p => within p (Scalar (100, 100, 100)) _)),
      (filter_none (fun p => within p (Scalar (40, 50, 50)) _)).
    + exact DR.
    + eapply Forall_impl; [ exact F | ].
      intros px (h & s & v & -> & Hh & Hs & Hv).
      apply not_true_is_false. rewrite within_hsv. lia.
    + eapply Forall_impl; [ exact F | ].
      intros px (h & s & v & -> & Hh & Hs & Hv).
      apply not_true_is_false. rewrite within_hsv. lia.
    + eapply Forall_impl; [ exact F | ].
      intros px (h & s & v & -> & Hh & Hs & Hv).
      apply within_hsv. lia.
  - rewrite (filter_all (fun p => within p (Scalar (100, 100, 100)) _)
               (concat (hsv_of img))),
      (filter_none (fun p => within p (Scalar (170, 100, 100)) _)),
      (filter_none (fun p => within p (Scalar (40, 50, 50)) _)).
    + exact DB.
    + eapply Forall_impl; [ exact F | ].
      intros px (h & s & v & -> & Hh & Hs & Hv).
      apply not_true_is_false. rewrite within_hsv. lia.
    + eapply Forall_impl; [ exact F | ].
      intros px (h & s & v & -> & Hh & Hs & Hv).
      apply not_true_is_false. rewrite within_hsv. lia.
    + eapply Forall_impl; [ exact F | ].
      intros px (h & s & v & -> & Hh & Hs & Hv).
      apply within_hsv. lia.
  - rewrite (filter_all (fun p => within p (Scalar (40, 50, 50)) _)
               (concat (hsv_of img))),
      (filter_none (fun p => within p (Scalar (170, 100, 100)) _)),
      (filter_none (fun p => within p (Scalar (100, 100, 100)) _)).
    + exact DG.
    + eapply Forall_impl; [ exact F | ].
      intros px (h & s & v & -> & Hh & Hs & Hv).
      apply not_true_is_false. rewrite within_hsv. lia.
    + eapply Forall_impl; [ exact F | ].
      intros px (h & s & v & -> & Hh & Hs & Hv).
      apply not_true_is_false. rewrite within_hsv. lia.
    + eapply Forall_impl; [ exact F | ].
      intros px (h & s & v & -> & Hh & Hs & Hv).
      apply within_hsv. lia.
Qed.

End Counts.

Lemma filter_inhabited {A} (f : A -> bool) (l : list A) :
  0 < Z.of_nat (length (List.filter f l)) ->
  exists a, In a l /\ f a = true.
Proof.
  destruct (List.filter f l) as [|a r] eqn:E; [ cbn; lia | intros _ ].
  exists a. apply filter_In. rewrite E. now left.
Qed.

Section Labels.
Context {cv : CV2}.

(** X6.  A label is one of None, 'Red', 'Blue' and 'Green', and a colour
    is only named when the image has a pixel inside that colour's band. *)
Theorem label_has_pixel (w : world) (l : loc) (img : Mat)
    (res : AnalysisResult) :
  heap w !! l = Some img ->
  fst (analyze_image (Some l) w) = Ok res ->
  (color res = None \/ color res = Some "Red"%string
   \/ color res = Some "Blue"%string \/ color res = Some "Green"%string)
  /\ (color res = Some "Red"%string ->
      exists px, In px (concat (hsv_of img))
        /\ within px (Scalar (170, 100, 100)) (Scalar (180, 255, 255)) = true)
  /\ (color res = Some "Blue"%string ->
      exists px, In px (concat (hsv_of img))
        /\ within px (Scalar (100, 100, 100)) (Scalar (140, 255, 255)) = true)
  /\ (color res = Some "Green"%string ->
      exists px, In px (concat (hsv_of img))
        /\ within px (Scalar (40, 50, 50)) (Scalar (80, 255, 255)) = true).
Proof.
  intros Himg Hres.
  apply analyze_image_Ok in Hres.
  destruct Hres as (l' & img' & [= <-] & Himg' & _ & ->).
  rewrite Himg in Himg'. injection Himg' as <-.
  pose proof (band_count_range (hsv_of img) (170, 100, 100) (180, 255, 255))
    as Rr.
  pose proof (band_count_range (hsv_of img) (100, 100, 100) (140, 255, 255))
    as Rb.
  pose proof (band_count_range (hsv_of img) (40, 50, 50) (80, 255, 255))
    as Rg.
  fold (red_count_of img) in Rr. fold (blue_count_of img) in Rb.
  fold (green_count_of img) in Rg.
  assert (Pr : 0 < red_count_of img -> exists px, In px (concat (hsv_of img))
    /\ within px (Scalar (170, 100, 100)) (Scalar (180, 255, 255)) = true).
  { unfold red_count_of. rewrite band_count_within.
    apply filter_inhabited. }
  assert (Pb : 0 < blue_count_of img -> exists px, In px (concat (hsv_of img))
    /\ within px (Scalar (100, 100, 100)) (Scalar (140, 255, 255)) = true).
  { unfold blue_count_of. rewrite band_count_within.
    apply filter_inhabited. }
  assert (Pg : 0 < green_count_of img -> exists px, In px (concat (hsv_of img))
    /\ within px (Scalar (40, 50, 50)) (Scalar (80, 255, 255)) = true).
  { unfold green_count_of. rewrite band_count_within.
    apply filter_inhabited. }
  unfold dominant_color.
  destruct (Z.gtb_spec (red_count_of img) (blue_count_of img));
    destruct (Z.gtb_spec (red_count_of img) (green_count_of img));
    destruct (Z.gtb_spec (blue_count_of img) (red_count_of img));
    destruct (Z.gtb_spec (blue_count_of img) (green_count_of img));
    destruct (Z.gtb_spec (green_count_of img) (red_count_of img));
    destruct (Z.gtb_spec (green_count_of img) (blue_count_of img));
    cbn [andb];
    (split; [ tauto | ]);
    repeat split; intros E; try discriminate E;
    first [ apply Pr | apply Pb | apply Pg ]; lia.
Qed.

(** X7.  The label depends on which HSV pixels the image has, not on
    where they are: two images whose HSV pixels are a rearrangement of
    each other get the same label. *)
Theorem label_ignores_positions (w1 w2 : world) (l1 l2 : loc)
    (img1 img2 : Mat) (res1 res2 : AnalysisResult) :
  heap w1 !! l1 = Some img1 ->
  heap w2 !! l2 = Some img2 ->
  fst (analyze_image (Some l1) w1) = Ok res1 ->
  fst (analyze_image (Some l2) w2) = Ok res2 ->
  Permutation (concat (hsv_of img1)) (concat (hsv_of img2)) ->
  color res1 = color res2.
Proof.
  intros H1 H2 R1 R2 P.
  apply analyze_image_Ok in R1, R2.
  destruct R1 as (l1' & i1 & [= <-] & H1' & _ & ->).
  destruct R2 as (l2' & i2 & [= <-] & H2' & _ & ->).
  rewrite H1 in H1'. injection H1' as <-.
  rewrite H2 in H2'. injection H2' as <-.
  unfold red_count_of, blue_count_of, green_count_of.
  rewrite !band_count_within.
  now rewrite !(filter_length_perm _ _ _ P).
Qed.

End Labels.

(** ** analyze_image: the plate list *)

Lemma aspect_between (p : Plate.t) :
  0 < Plate.h p ->
  (2 < aspect p)%Q -> (aspect p < 5)%Q ->
  2 * Plate.h p < Plate.w p < 5 * Plate.h p.
Proof.
  destruct p as [x y w h]. unfold aspect. cbn [Plate.w Plate.h].
  intros Hh. destruct h as [|h|h]; try lia.
  unfold Qlt, Qdiv, Qmult, Qinv, inject_Z. cbn. lia.
Qed.

Section Plates.
Context {cv : CV2}.

(** X8.  Every rectangle of a returned plate list has a height of at
    least one pixel and a width strictly between twice and five times its
    height, so it is at least three pixels wide. *)
Theorem plate_proportions (w : world) (image : pyref) (res : AnalysisResult) :
  fst (analyze_image image w) = Ok res ->
  Forall (fun p => 1 <= Plate.h p
                   /\ 2 * Plate.h p < Plate.w p < 5 * Plate.h p
                   /\ 3 <= Plate.w p)
    (number_plates res).
Proof.
  intros Hres. apply analyze_image_Ok in Hres.
  destruct Hres as (l & img & _ & _ & L & _).
  apply for_cnt_Ok_iff in L. destruct L as [_ ->]. cbn [app].
  apply Forall_map. apply Forall_forall. intros cnt Hc.
  apply list_elem_of_In in Hc. apply filter_In in Hc. destruct Hc as [_ K].
  apply keeps_candidate in K. destruct K as [[K2 K5] _].
  assert (N : cnt <> []).
  { intros ->. discriminate K2. }
  pose proof (boundingRect_size cnt N) as [_ Hh].
  pose proof (aspect_between (bounding_plate cnt) ltac:(lia) K2 K5).
  cbn. lia.
Qed.

(** X9.  The plate list is never longer than the list of discovered
    contours, and an image [cvtColor] takes in whose edge map no contour
    is found gets an empty plate list (and still its colour label). *)
Theorem plates_at_most_contours (w : world) (l : loc) (img : Mat) :
  heap w !! l = Some img ->
  (forall res, fst (analyze_image (Some l) w) = Ok res ->
     (length (number_plates res) <= length (discovered img))%nat)
  /\ (cvt_accepts img = true ->
      discovered img = [] ->
      fst (analyze_image (Some l) w) =
        Ok (mkResult (dominant_color (red_count_of img) (blue_count_of img)
                        (green_count_of img)) [])).
Proof.
  intros Himg. split.
  - intros res Hres. apply analyze_image_Ok in Hres.
    destruct Hres as (l' & img' & [= <-] & Himg' & L & _).
    rewrite Himg in Himg'. injection Himg' as <-.
    apply for_cnt_Ok_iff in L. destruct L as [_ ->]. cbn [app].
    rewrite length_map. apply List.filter_length_le.
  - intros Hacc E. rewrite (analyze_image_run _ _ _ Himg Hacc), E.
    reflexivity.
Qed.

End Plates.

(** ** allowed_file: further properties *)

Lemma lower_app (s t : string) : lower (s ++ t) = (lower s ++ lower t)%string.
Proof.
  induction s as [|a s IH]; [ reflexivity | ].
  cbn. now rewrite IH.
Qed.

(** A name cut at its last dot is judged by what follows the dot. *)
Lemma allowed_file_cut (stem ext : string) :
  contains "." ext = false ->
  allowed_file (stem ++ String "." ext) =
    Ok (existsb (String.eqb (lower ext)) ["png"; "jpg"; "jpeg"]%string).
Proof.
  intros Hext. unfold allowed_file.
  rewrite contains_app. cbn [contains]. rewrite Ascii.eqb_refl, orb_true_r.
  now rewrite (rsplit1_cut _ _ _ Hext).
Qed.

(** X10.  Only what follows the last dot counts: two names with the same
    last extension get the same answer, whatever precedes it (nothing,
    directories, other extensions). *)
Theorem last_extension_decides (stem stem' ext : string) :
  contains "." ext = false ->
  allowed_file (stem ++ String "." ext)
  = allowed_file (stem' ++ String "." ext).
Proof.
  intros Hext. now rewrite !allowed_file_cut by exact Hext.
Qed.

(** X11.  A name that ends in a dot is rejected, whatever precedes the
    dot. *)
Theorem trailing_dot_rejected (stem : string) :
  allowed_file (stem ++ ".") = Ok false.
Proof.
  now rewrite (allowed_file_cut stem EmptyString eq_refl).
Qed.

(** X12.  A name is accepted exactly when, lowercased, it ends in '.png',
    '.jpg' or '.jpeg'. *)
Theorem accepted_iff_suffix (name : string) :
  allowed_file name = Ok true <->
  exists stem : string,
    lower name = (stem ++ ".png")%string
    \/ lower name = (stem ++ ".jpg")%string
    \/ lower name = (stem ++ ".jpeg")%string.
Proof.
  split.
  - unfold allowed_file.
    destruct (contains "." name) eqn:C; [ | discriminate ].
    destruct (rsplit1_present _ _ C) as (stem & ext & -> & -> & Hext).
    cbn [getindex nth_error]. intros [= T].
    apply extension_test in T.
    exists (lower stem). rewrite lower_app. cbn [lower].
    change (lower_ascii ".") with "."%char.
    destruct T as [-> | [-> | ->]]; tauto.
  - intros (stem & E). rewrite <- allowed_file_lower.
    destruct E as [-> | [-> | ->]]; now rewrite allowed_file_cut.
Qed.

Lemma last_extension_decides_witness :
  allowed_file "shell.php.png" = allowed_file ".png"
  /\ allowed_file "photo.png.exe" = allowed_file "a/b.exe".
Proof.
  split.
  - apply (last_extension_decides "shell.php" "" "png"). reflexivity.
  - apply (last_extension_decides "photo.png" "a/b" "exe"). reflexivity.
Defined.

Lemma accepted_iff_suffix_witness :
  allowed_file "Car.JPeG" = Ok true.
Proof.
  apply (accepted_iff_suffix "Car.JPeG").
  exists "car"%string. right. right. reflexivity.
Defined.

(** ** index: what a request does *)

Lemma getitem_Raise (d : list (string * FileStorage)) key e :
  getitem d key = Raise e -> has_key key d = false /\ e = KeyError.
Proof.
  induction d as [|[k v] d IH]; cbn.
  - intros [= <-]. now split.
  - destruct (String.eqb k key); [ discriminate | exact IH ].
Qed.

Lemma getitem_first (pre post : list (string * FileStorage)) key file :
  has_key key pre = false ->
  getitem (pre ++ (key, file) :: post) key = Ok file.
Proof.
  induction pre as [|[k v] pre IH]; cbn.
  - intros _. now rewrite String.eqb_refl.
  - intros E. apply orb_false_iff in E. destruct E as [-> E]. now apply IH.
Qed.

Lemma allowed_file_bool (name : string) :
  allowed_file name = Ok true \/ allowed_file name = Ok false.
Proof.
  unfold allowed_file. destruct (contains "." name) eqn:C; [ | now right ].
  destruct (rsplit1_present _ _ C) as (stem & ext & -> & _ & _).
  cbn [getindex nth_error]. destruct (existsb _ _); tauto.
Qed.

Section IndexFacts.
Context {cv : CV2}.

Lemma index_not_post (w : world) (request : Request) :
  method request <> "POST"%string ->
  index request w = (Ok (render_template "index.html" []), w).
Proof.
  intros Hm. unfold index.
  apply String.eqb_neq in Hm. now rewrite Hm.
Qed.

Lemma index_post_nofile (w : world) (request : Request) :
  method request = "POST"%string ->
  has_key "file" (files request) = false ->
  index request w =
    (Ok (render_template "index.html"
           [("error"%string, CtxStr "No file part")]),
     mkWorld (heap w) (stdout w ++ [files request]) (calls w)).
Proof.
  intros Hm Hk. unfold index, post_block. now rewrite Hm, Hk.
Qed.

(** The whole course of a POST that carries a 'file' field. *)
Lemma index_post_run (w : world) (request : Request) (file : FileStorage) :
  method request = "POST"%string ->
  getitem (files request) "file" = Ok file ->
  index request w =
    if String.eqb (filename file) "" then
      (Ok (render_template "index.html"
             [("error"%string, CtxStr "No selected file")]),
       mkWorld (heap w) (stdout w ++ [files request]) (calls w))
    else
      match allowed_file (filename file) with
      | Raise e =>
          (Raise e, mkWorld (heap w) (stdout w ++ [files request]) (calls w))
      | Ok false =>
          (Ok (render_template "index.html" []),
           mkWorld (heap w) (stdout w ++ [files request]) (calls w))
      | Ok true =>
          match np_fromstring (stream file) with
          | [] =>
              (Raise cv2_error,
               mkWorld (heap w) (stdout w ++ [files request])
                 (calls w ++ [Call_read (filename file)]))
          | _ :: _ =>
              match imdecode_color (np_fromstring (stream file)) with
              | None =>
                  (Raise cv2_error,
                   mkWorld (heap w) (stdout w ++ [files request])
                     (calls w ++ [Call_read (filename file);
                                  Call_analyze_image None]))
              | Some img =>
                  (match for_cnt (discovered img) [] with
                   | Ok plates =>
                       Ok (render_template "result.html"
                             [("result"%string,
                               CtxResult
                                 (mkResult
                                    (dominant_color (red_count_of img)
                                       (blue_count_of img)
                                       (green_count_of img))
                                    plates))])
                   | Raise e => Raise e
                   end,
                   mkWorld (heap w ++ img :: derived img)
                     (stdout w ++ [files request])
                     (calls w ++ [Call_read (filename file);
                                  Call_analyze_image
                                    (Some (length (heap w)))]))
              end
          end
      end.
Proof.
  intros Hm Hg. unfold index, post_block.
  rewrite Hm, String.eqb_refl, (getitem_has_key _ _ _ Hg). cbn [negb].
  unfold bind at 1 2, print at 1. cbn beta iota.
  unfold bind at 1, lift at 1. rewrite Hg. cbn beta iota.
  unfold truthy.
  destruct (String.eqb (filename file) "") eqn:En; [ reflexivity | ].
  cbn [negb]. unfold bind at 1, lift at 1.
  destruct (allowed_file (filename file)) as [[|]|e]; try reflexivity.
  unfold read, imdecode, np_fromstring.
  unfold bind at 1 2, log at 1. cbn beta iota.
  unfold ret at 1. cbn beta iota.
  destruct (stream file) as [|b rest] eqn:Hs; [ reflexivity | ].
  destruct (imdecode_color (b :: rest)) as [img|] eqn:Hd.
  - pose proof (imdecode_shape _ _ Hd) as Hacc.
    unfold bind at 1, alloc at 1. cbn [heap stdout calls].
    unfold bind at 1 2, log at 1. cbn [heap stdout calls].
    rewrite (analyze_image_run _ (length (heap w)) img)
      by (first [ exact Hacc | cbn [heap]; apply lookup_snoc_here ]).
    cbn [heap stdout calls].
    rewrite <- !app_assoc. cbn [app].
    now destruct (for_cnt (discovered img) []).
  - unfold bind at 1, ret at 1.
    unfold bind at 1 2, log at 1. cbn [heap stdout calls].
    rewrite analyze_image_None. rewrite <- !app_assoc. reflexivity.
Qed.

End IndexFacts.

Section IndexClaims.
Context {cv : CV2}.

(** X13.  A POST whose first 'file' field has a non-empty name that
    [allowed_file] rejects is answered with index.html without any
    context: the file is not read, nothing is allocated and the analysis
    is not called; the view has only printed request.files. *)
Theorem rejected_upload_form (w : world) (request : Request)
    (file : FileStorage) :
  method request = "POST"%string ->
  getitem (files request) "file" = Ok file ->
  filename file <> ""%string ->
  allowed_file (filename file) = Ok false ->
  index request w =
    (Ok (render_template "index.html" []),
     mkWorld (heap w) (stdout w ++ [files request]) (calls w)).
Proof.
  intros Hm Hg Hn Ha. rewrite (index_post_run _ _ _ Hm Hg).
  apply String.eqb_neq in Hn. now rewrite Hn, Ha.
Qed.


(** X15.  An accepted upload that decodes to an image whose contours all
    have a point is answered with result.html, whose 'result' is the
    analysis of the decoded image: the label of its three counts and the
    rectangles of its plate candidates.  The file was read once and the
    analysis called once, on the freshly allocated image; the heap has
    grown by the image and the eight buffers derived from it. *)
Theorem accepted_upload_result (w : world) (request : Request)
    (file : FileStorage) (img : Mat) :
  upload_accepted request file ->
  imdecode_color (np_fromstring (stream file)) = Some img ->
  Forall (fun cnt => cnt <> []) (discovered img) ->
  index request w =
    (Ok (render_template "result.html"
           [("result"%string,
             CtxResult
               (mkResult
                  (dominant_color (red_count_of img) (blue_count_of img)
                     (green_count_of img))
                  (bounding_plate <$>
                     filter plate_candidate (discovered img))))]),
     mkWorld (heap w ++ img :: derived img) (stdout w ++ [files request])
       (calls w ++ [Call_read (filename file);
                    Call_analyze_image (Some (length (heap w)))])).
Proof.
  intros (Hm & Hg & Hn & Ha) Hd Hne. rewrite (index_post_run _ _ _ Hm Hg).
  apply String.eqb_neq in Hn. rewrite Hn, Ha. unfold np_fromstring in *.
  destruct (stream file) as [|b rest];
    [ rewrite imdecode_empty in Hd; discriminate | ].
  rewrite Hd.
  assert (L : for_cnt (discovered img) [] =
              Ok (map bounding_plate (List.filter keeps (discovered img)))).
  { apply for_cnt_Ok_iff. split; [ | reflexivity ].
    eapply Forall_impl; [ exact Hne | ].
    intros cnt N E. now apply height0_empty in E. }
  now rewrite L, filter_keeps.
Qed.

(** X16.  The view raises only for an accepted upload, and only two
    exceptions: cv2.error when the bytes do not decode, ZeroDivisionError
    when the decoded image has a contour without a point.  It raises
    neither KeyError nor IndexError. *)
Theorem index_raises_only (w : world) (request : Request) (e : exn) :
  fst (index request w) = Raise e ->
  exists file,
    upload_accepted request file
    /\ ((e = cv2_error
         /\ imdecode_color (np_fromstring (stream file)) = None)
        \/ (e = ZeroDivisionError
            /\ exists img,
                 imdecode_color (np_fromstring (stream file)) = Some img
                 /\ In [] (discovered img))).
Proof.
  destruct (String.eqb_spec (method request) "POST") as [Hm|Hm];
    [ | rewrite index_not_post by exact Hm; discriminate ].
  destruct (getitem (files request) "file") as [file|e0] eqn:Hg.
  - rewrite (index_post_run _ _ _ Hm Hg).
    destruct (String.eqb_spec (filename file) "") as [Hn|Hn];
      [ discriminate | ].
    destruct (allowed_file_bool (filename file)) as [Ha|Ha]; rewrite Ha;
      [ | discriminate ].
    unfold np_fromstring.
    destruct (stream file) as [|b rest] eqn:Hs.
    { cbn [fst]. intros [= <-].
      exists file. split; [ now repeat split | ].
      left. split; [ reflexivity | ]. rewrite Hs. apply imdecode_empty. }
    destruct (imdecode_color (b :: rest)) as [img|] eqn:Hd.
    + cbn [fst].
      destruct (for_cnt (discovered img) []) as [plates|e1] eqn:L;
        [ discriminate | ].
      intros [= <-]. apply for_cnt_Raise_iff in L. destruct L as [-> Hin].
      exists file. split; [ now repeat split | ].
      right. split; [ reflexivity | ]. exists img. now rewrite Hs.
    + cbn [fst]. intros [= <-].
      exists file. split; [ now repeat split | ]. left. now rewrite Hs.
  - apply getitem_Raise in Hg. destruct Hg as [Hk _].
    rewrite index_post_nofile by assumption. discriminate.
Qed.


(** X18.  Whatever the request, the view leaves every buffer already on
    the heap as it was: the heap afterwards is the old heap followed by
    nothing or by the nine buffers of one analysis.  It prints
    request.files once for a POST and nothing otherwise, and a request
    that is not a POST gets the plain form with the world unchanged. *)
Theorem index_effects (w : world) (request : Request) :
  (exists fresh,
     heap (snd (index request w)) = heap w ++ fresh
     /\ (fresh = [] \/ length fresh = 9%nat))
  /\ stdout (snd (index request w)) =
       stdout w ++ (if String.eqb (method request) "POST"
                    then [files request] else [])
  /\ (method request <> "POST"%string ->
      index request w = (Ok (render_template "index.html" []), w)).
Proof.
  split; [ | split ]; [ | | apply index_not_post ].
  - destruct (String.eqb_spec (method request) "POST") as [Hm|Hm].
    + destruct (getitem (files request) "file") as [file|e0] eqn:Hg.
      * rewrite (index_post_run _ _ _ Hm Hg).
        destruct (String.eqb (filename file) "");
          [ exists []; cbn; rewrite app_nil_r; tauto | ].
        destruct (allowed_file (filename file)) as [[|]|e1];
          try (exists []; cbn; rewrite app_nil_r; tauto).
        destruct (np_fromstring (stream file));
          [ exists []; cbn; rewrite app_nil_r; tauto | ].
        destruct (imdecode_color _) as [img|];
          [ | exists []; cbn; rewrite app_nil_r; tauto ].
        exists (img :: derived img). cbn. tauto.
      * apply getitem_Raise in Hg. destruct Hg as [Hk _].
        rewrite index_post_nofile by assumption.
        exists []. cbn. rewrite app_nil_r. tauto.
    + rewrite index_not_post by exact Hm.
      exists []. cbn. rewrite app_nil_r. tauto.
  - destruct (String.eqb_spec (method request) "POST") as [Hm|Hm].
    + destruct (getitem (files request) "file") as [file|e0] eqn:Hg.
      * rewrite (index_post_run _ _ _ Hm Hg).
        destruct (String.eqb (filename file) ""); [ reflexivity | ].
        destruct (allowed_file (filename file)) as [[|]|e1];
          try reflexivity.
        destruct (np_fromstring (stream file)); [ reflexivity | ].
        now destruct (imdecode_color _).
      * apply getitem_Raise in Hg. destruct Hg as [Hk _].
        now rewrite index_post_nofile.
    + rewrite index_not_post by exact Hm. cbn. now rewrite app_nil_r.
Qed.

(** X19.  Of several form fields the view looks at the first one named
    'file' and at nothing else: fields with other names and later 'file'
    fields change neither the response nor the heap nor the call log
    (they only show in what is printed). *)
Theorem first_file_field_wins (w : world)
    (pre post : list (string * FileStorage)) (file : FileStorage) :
  has_key "file" pre = false ->
  let request := mkRequest "POST" (pre ++ ("file"%string, file) :: post) in
  let alone := mkRequest "POST" [("file"%string, file)] in
  fst (index request w) = fst (index alone w)
  /\ heap (snd (index request w)) = heap (snd (index alone w))
  /\ calls (snd (index request w)) = calls (snd (index alone w)).
Proof.
  intros Hpre. cbn zeta.
  rewrite (index_post_run w (mkRequest "POST" _) file eq_refl
             (getitem_first pre post "file" file Hpre)).
  rewrite (index_post_run w (mkRequest "POST" [_]) file eq_refl
             (getitem_first [] [] "file" file eq_refl)).
  destruct (String.eqb (filename file) ""); [ now repeat split | ].
  destruct (allowed_file (filename file)) as [[|]|e1];
    try now repeat split.
  destruct (np_fromstring (stream file)); [ now repeat split | ].
  destruct (imdecode_color _) as [img|]; now repeat split.
Qed.

End IndexClaims.

(** ** The further properties at concrete inputs *)

Lemma analysis_outcome_witness :
  fst (analyze_image (cv := toy_cv) (Some 0%nat) (mkWorld [gap_image] [] []))
  = Raise ZeroDivisionError
  /\ fst (analyze_image (cv := toy_cv) (Some 3%nat) demo_world)
     = Raise cv2_error
  /\ fst (analyze_image (cv := toy_cv) (Some 0%nat)
            (mkWorld [grey_image] [] []))
     = Raise cv2_error
  /\ fst (analyze_image (cv := toy_cv) (Some 0%nat) (mkWorld [[]] [] []))
     = Raise cv2_error.
Proof.
  split; [ | split; [ | split ] ].
  - apply (analysis_outcome (cv := toy_cv) (mkWorld [gap_image] [] [])
             (Some 0%nat)).
    exists 0%nat, gap_image. repeat split. right. now left.
  - apply (analysis_outcome (cv := toy_cv) demo_world (Some 3%nat)).
    right. left. now exists 3%nat.
  - apply (analysis_outcome (cv := toy_cv) (mkWorld [grey_image] [] [])
             (Some 0%nat)).
    right. right. now exists 0%nat, grey_image.
  - apply (analysis_outcome (cv := toy_cv) (mkWorld [[]] [] [])
             (Some 0%nat)).
    right. right. now exists 0%nat, [].
Defined.

Lemma analysis_depends_on_content_witness :
  fst (analyze_image (cv := toy_cv) (Some 0%nat) demo_world)
  = fst (analyze_image (cv := toy_cv) (Some 1%nat)
           (mkWorld [red_image; demo_image] [] [])).
Proof.
  apply (analysis_depends_on_content (cv := toy_cv) demo_world
           (mkWorld [red_image; demo_image] [] []) 0%nat 1%nat demo_image);
    reflexivity.
Defined.

Lemma analysis_allocation_witness :
  length (heap (snd (analyze_image (cv := toy_cv) (Some 0%nat) demo_world)))
  = 9%nat
  /\ snd (analyze_image (cv := toy_cv) None demo_world) = demo_world
  /\ snd (analyze_image (cv := toy_cv) (Some 0%nat)
            (mkWorld [grey_image] [] []))
     = mkWorld [grey_image] [] [].
Proof.
  destruct (analysis_allocation (cv := toy_cv) demo_world (Some 0%nat))
    as [Hlive _].
  destruct (analysis_allocation (cv := toy_cv) demo_world None)
    as [_ Hdead].
  destruct (analysis_allocation (cv := toy_cv) (mkWorld [grey_image] [] [])
              (Some 0%nat)) as [_ Hgrey].
  split; [ | split ].
  - apply (Hlive 0%nat demo_image); reflexivity.
  - apply Hdead. now left.
  - apply Hgrey. right. right. now exists 0%nat, grey_image.
Defined.

Lemma counts_bounded_witness :
  red_count_of (cv := toy_cv) demo_image
  + blue_count_of (cv := toy_cv) demo_image
  + green_count_of (cv := toy_cv) demo_image <= 9.
Proof.
  apply (counts_bounded (cv := toy_cv) demo_image).
  repeat constructor; discriminate.
Defined.

Lemma uniform_band_label_witness :
  (fst (analyze_image (cv := toy_cv) (Some 0%nat) (mkWorld [red_image] [] []))
   = Ok (mkResult (Some "Red"%string) [])
   /\ fst (analyze_image (cv := toy_cv) (Some 0%nat)
             (mkWorld [blue_image] [] []))
      = Ok (mkResult (Some "Blue"%string) [])
   /\ fst (analyze_image (cv := toy_cv) (Some 0%nat)
             (mkWorld [green_image] [] []))
      = Ok (mkResult (Some "Green"%string) []))
  /\ color (mkResult (Some "Red"%string) []) = Some "Red"%string
  /\ color (mkResult (Some "Blue"%string) []) = Some "Blue"%string
  /\ color (mkResult (Some "Green"%string) []) = Some "Green"%string.
Proof.
  split; [ now repeat split | ].
  split; [ | split ].
  - apply (uniform_band_label (cv := toy_cv) (mkWorld [red_image] [] [])
             0%nat red_image (mkResult (Some "Red"%string) []));
      [ reflexivity | reflexivity | discriminate | ].
    repeat constructor;
      [ exists 175, 200, 200 | exists 170, 100, 100 ];
      (split; [ reflexivity | lia ]).
  - apply (uniform_band_label (cv := toy_cv) (mkWorld [blue_image] [] [])
             0%nat blue_image (mkResult (Some "Blue"%string) []));
      [ reflexivity | reflexivity | discriminate | ].
    repeat constructor;
      [ exists 120, 200, 200 | exists 100, 100, 100 ];
      (split; [ reflexivity | lia ]).
  - apply (uniform_band_label (cv := toy_cv) (mkWorld [green_image] [] [])
             0%nat green_image (mkResult (Some "Green"%string) []));
      [ reflexivity | reflexivity | discriminate | ].
    repeat constructor;
      [ exists 60, 200, 200 | exists 40, 50, 50 ];
      (split; [ reflexivity | lia ]).
Defined.

Lemma label_has_pixel_witness :
  exists px, In px (concat (hsv_of (cv := toy_cv) demo_image))
    /\ within px (Scalar (170, 100, 100)) (Scalar (180, 255, 255)) = true.
Proof.
  destruct (label_has_pixel (cv := toy_cv) demo_world 0%nat demo_image
              demo_result eq_refl eq_refl) as (_ & Hred & _).
  apply Hred. reflexivity.
Defined.

Lemma label_ignores_positions_witness :
  fst (analyze_image (cv := toy_cv) (Some 0%nat)
         (mkWorld [shuffled_image] [] []))
  = Ok (mkResult (Some "Red"%string) [])
  /\ color demo_result = color (mkResult (Some "Red"%string) []).
Proof.
  split; [ reflexivity | ].
  apply (label_ignores_positions (cv := toy_cv) demo_world
           (mkWorld [shuffled_image] [] []) 0%nat 0%nat
           demo_image shuffled_image);
    try reflexivity.
  apply Permutation_sym.
  exact (Permutation_app_comm [[175; 200; 200]]
           [[10; 10; 0]; [10; 29; 0]; [69; 29; 0]; [69; 10; 0];
            [0; 0; 0]; [0; 9; 0]; [9; 9; 0]; [9; 0; 0]]).
Defined.

Lemma plate_proportions_witness :
  Forall (fun p => 1 <= Plate.h p
                   /\ 2 * Plate.h p < Plate.w p < 5 * Plate.h p
                   /\ 3 <= Plate.w p)
    (number_plates demo_result).
Proof.
  apply (plate_proportions (cv := toy_cv) demo_world (Some 0%nat)).
  reflexivity.
Defined.

Lemma plates_at_most_contours_witness :
  (length (number_plates demo_result) <= 3)%nat
  /\ fst (analyze_image (cv := flat_cv) (Some 0%nat) demo_world)
     = Ok (mkResult (Some "Red"%string) []).
Proof.
  destruct (plates_at_most_contours (cv := toy_cv) demo_world 0%nat
              demo_image eq_refl) as [Hlen _].
  destruct (plates_at_most_contours (cv := flat_cv) demo_world 0%nat
              demo_image eq_refl) as [_ Hblank].
  split.
  - apply (Hlen demo_result). reflexivity.
  - apply Hblank; reflexivity.
Defined.

Lemma rejected_upload_form_witness :
  index (cv := toy_cv)
    (mkRequest "POST" [("file"%string, mkFile "notes.pdf" ["x"%byte])])
    empty_world
  = (Ok (render_template "index.html" []),
     mkWorld [] [[("file"%string, mkFile "notes.pdf" ["x"%byte])]] []).
Proof.
  apply (rejected_upload_form (cv := toy_cv) empty_world
           (mkRequest "POST" [("file"%string, mkFile "notes.pdf" ["x"%byte])])
           (mkFile "notes.pdf" ["x"%byte]));
    [ reflexivity | reflexivity | discriminate | reflexivity ].
Defined.


Lemma accepted_upload_result_witness :
  fst (index (cv := toy_cv) car_png empty_world) =
    Ok (render_template "result.html"
          [("result"%string, CtxResult (mkResult (Some "Blue"%string) []))]).
Proof.
  rewrite (accepted_upload_result (cv := toy_cv) empty_world car_png
             (mkFile "car.PNG" ["x"%byte]) [[[120; 120; 120]]]).
  - reflexivity.
  - repeat split. discriminate.
  - reflexivity.
  - repeat constructor. discriminate.
Defined.

Lemma index_raises_only_witness :
  exists file,
    upload_accepted broken_png file
    /\ ((cv2_error = cv2_error
         /\ imdecode_color (CV2 := toy_cv) (np_fromstring (stream file)) = None)
        \/ (cv2_error = ZeroDivisionError
            /\ exists img,
                 imdecode_color (CV2 := toy_cv) (np_fromstring (stream file))
                 = Some img
                 /\ In [] (discovered (cv := toy_cv) img))).
Proof.
  apply (index_raises_only (cv := toy_cv) empty_world broken_png cv2_error).
  reflexivity.
Defined.


Lemma index_effects_witness :
  index (cv := toy_cv) (mkRequest "GET" []) demo_world
  = (Ok (render_template "index.html" []), demo_world).
Proof.
  apply (index_effects (cv := toy_cv) demo_world (mkRequest "GET" [])).
  discriminate.
Defined.

Lemma first_file_field_wins_witness :
  fst (index (cv := toy_cv) two_files empty_world)
  = fst (index (cv := toy_cv) car_png empty_world).
Proof.
  apply (first_file_field_wins (cv := toy_cv) empty_world
           [("note"%string, mkFile "readme.png" ["x"%byte])]
           [("file"%string, mkFile "other.txt" ["y"%byte])]
           (mkFile "car.PNG" ["x"%byte])).
  reflexivity.
Defined.
